(** * image-optimiser: derivative generation and quality analysis

    A shallow embedding of [src/utils/imageProcessor.ts] (classes
    [ImageProcessor] and [ImageQualityAnalyzer]), of the constants of
    [src/constants/index.tsx] and of [App.handleProcess], together with the
    properties of the specification that can be checked on them.

    JavaScript numbers are IEEE 754 binary64 values.  Quantities that the
    program only ever handles as integers (pixel widths, counters, byte
    values, the quality slider) are kept in [Z]; every quantity that goes
    through a division or a decimal literal is a [spec_float] computed with
    the binary64 operations of the standard library, so that rounding, NaN
    and the infinities behave as they do in the browser. *)

From Stdlib Require Import ZArith List String Ascii Bool Lia Recdef FunInd Sorted.
From Stdlib Require Import Floats.SpecFloat.
From Stdlib Require Import DecimalString DecimalZ DecimalPos.
Import ListNotations.

Local Open Scope string_scope.
Local Open Scope Z_scope.

(* ================================================================== *)
(** ** JavaScript numbers *)

Module JS.

Definition number := spec_float.

Definition prec : Z := 53.
Definition emax : Z := 1024.

Definition NaN : number := S754_nan.
Definition Infinity : number := S754_infinity false.
Definition NegInfinity : number := S754_infinity true.

(** The Number value of a mathematical integer (exact below 2^53). *)
Definition of_Z (z : Z) : number := binary_normalize prec emax z 0 false.

Definition add : number -> number -> number := SFadd prec emax.
Definition sub : number -> number -> number := SFsub prec emax.
Definition mul : number -> number -> number := SFmul prec emax.
Definition div : number -> number -> number := SFdiv prec emax.

Definition ltb : number -> number -> bool := SFltb.
Definition leb : number -> number -> bool := SFleb.
Definition gtb (x y : number) : bool := SFltb y x.

(** The value of a decimal literal [n/d] with [d] a power of ten: the
    binary64 number nearest to the rational, which is also what the
    correctly rounded quotient of the two integers gives. *)
Definition lit (n d : Z) : number := div (of_Z n) (of_Z d).

Definition is_nan (x : number) : bool :=
  match x with S754_nan => true | _ => false end.

(** Sign bit; [false] for NaN. *)
Definition signbit (x : number) : bool :=
  match x with
  | S754_zero s | S754_infinity s | S754_finite s _ _ => s
  | S754_nan => false
  end.

(** [x] is a zero, an infinity or a finite number of sign bit [s]. *)
Definition hasSign (s : bool) (x : number) : Prop :=
  match x with
  | S754_zero s' | S754_infinity s' | S754_finite s' _ _ => s' = s
  | S754_nan => False
  end.

(** [x] is NaN or has a clear sign bit. *)
Definition nanOrNonneg (x : number) : Prop :=
  match x with
  | S754_zero s | S754_infinity s | S754_finite s _ _ => s = false
  | S754_nan => True
  end.

Definition isFinite (x : number) : Prop :=
  match x with
  | S754_finite _ _ _ => True
  | _ => False
  end.

(** [floor (x + 1/2)] for a finite non-zero [x = (-1)^s * m * 2^e]. *)
Definition round_half_up_Z (s : bool) (m : positive) (e : Z) : Z :=
  let n := if s then Z.neg m else Z.pos m in
  match e with
  | Zneg p => (2 * n + 2 ^ Z.pos p) / (2 * 2 ^ Z.pos p)
  | _ => n * 2 ^ e
  end.

(** [Math.round]: the nearest integer, ties towards +Infinity; NaN, the
    infinities and the zeros are returned unchanged, and a result of zero
    keeps the sign of the argument. *)
Definition Math_round (x : number) : number :=
  match x with
  | S754_finite s m e =>
      let k := round_half_up_Z s m e in
      if k =? 0 then S754_zero s else of_Z k
  | _ => x
  end.

(** [Math.min] and [Math.max] of two numbers: NaN if either is NaN, and
    -0 is below +0. *)
Definition Math_min2 (x y : number) : number :=
  if is_nan x || is_nan y then NaN
  else if ltb x y then x
  else if ltb y x then y
  else if signbit x then x else y.

Definition Math_max2 (x y : number) : number :=
  if is_nan x || is_nan y then NaN
  else if ltb x y then y
  else if ltb y x then x
  else if signbit x then y else x.

(** [Math.min(...xs)] and [Math.max(...xs)]; on no argument they are
    +Infinity and -Infinity. *)
Definition Math_min (xs : list number) : number := fold_left Math_min2 xs Infinity.
Definition Math_max (xs : list number) : number := fold_left Math_max2 xs NegInfinity.

(** Truncation towards zero of a number; 0 for NaN and the infinities. *)
Definition IntegerPart (x : number) : Z :=
  match x with
  | S754_finite s m e =>
      let a := match e with
               | Zneg p => Z.pos m / 2 ^ Z.pos p
               | _ => Z.pos m * 2 ^ e
               end in
      if s then - a else a
  | _ => 0
  end.

(** Conversion to a Web IDL [unsigned long]. *)
Definition ulong_of_Z (z : Z) : Z := z mod 2 ^ 32.
Definition ulong_of_number (x : number) : Z := ulong_of_Z (IntegerPart x).

(** [`${n}`] for an integer-valued number below 1e21 in magnitude, which
    JavaScript prints in plain decimal digits; from 1e21 on it switches to
    exponent notation, which no width of this program reaches. *)
Definition toString (z : Z) : string := NilZero.string_of_int (Z.to_int z).

End JS.

Import JS.

(* ================================================================== *)
(** ** Data model ([src/types], [src/constants/index.tsx]) *)

Module ImageFormat.
Record t := mk { name : string; extension : string; mimeType : string }.
End ImageFormat.

Module Breakpoint.
Record t := mk { name : string; width : Z; description : string }.
End Breakpoint.

Module ProcessingOptions.
Record t := mk {
  lossless : bool;
  quality : Z;
  formats : list ImageFormat.t;
  breakpoints : list Breakpoint.t;
  includeRetina : bool
}.
End ProcessingOptions.

(** A [Blob] as the program sees it: its media type and its length. *)
Module Blob.
Record t := mk { type : string; size : Z }.
End Blob.

Module ProcessedImage.
Record dims := mkDims { width : Z; height : number }.
Record t := mk { name : string; blob : Blob.t; size : Z; dimensions : dims }.
End ProcessedImage.

Module ProcessingProgress.
Record t := mk { current : Z; total : Z; currentTask : string }.
End ProcessingProgress.

(** A decoded image element: its intrinsic width and height. *)
Module HTMLImageElement.
Record t := mk { width : Z; height : Z }.
End HTMLImageElement.

(** A [File]; [image] is what the browser decodes it to, [None] when the
    element fires [onerror]. *)
Module File.
Record t := mk { name : string; image : option HTMLImageElement.t }.
End File.

Definition AVIF : ImageFormat.t := ImageFormat.mk "AVIF" "avif" "image/avif".
Definition WebP : ImageFormat.t := ImageFormat.mk "WebP" "webp" "image/webp".
Definition JPEG : ImageFormat.t := ImageFormat.mk "JPEG" "jpg" "image/jpeg".
Definition PNG : ImageFormat.t := ImageFormat.mk "PNG" "png" "image/png".

Definition IMAGE_FORMATS : list ImageFormat.t := [AVIF; WebP; JPEG; PNG].

Definition DEFAULT_BREAKPOINTS : list Breakpoint.t :=
  [ Breakpoint.mk "4K" 3840 "4K displays";
    Breakpoint.mk "2K" 2560 "2K displays";
    Breakpoint.mk "1080p" 1920 "Full HD displays";
    Breakpoint.mk "Tablet" 1024 "Tablet devices";
    Breakpoint.mk "Mobile" 768 "Mobile devices";
    Breakpoint.mk "Small Mobile" 480 "Small mobile devices" ].

(* ================================================================== *)
(** ** The canvas and the effects of the processor *)

(** The pixels of the canvas are not modelled, only its bitmap size. *)
Record Canvas := mkCanvas { canvas_width : Z; canvas_height : Z }.

(** A fresh [<canvas>] element is 300 by 150. *)
Definition createCanvas : Canvas := mkCanvas 300 150.

(** Assigning to [canvas.width] / [canvas.height]: the value is converted to
    an [unsigned long]; a value above 2^31-1 falls back to the default. *)
Definition canvasDim (default v : Z) : Z :=
  if v >? 2147483647 then default else v.

(** What [canvas.toBlob] does with its callback. *)
Inductive ToBlob :=
| Encoded (b : Blob.t)     (* the callback receives a blob *)
| NullBlob                 (* the callback receives null *)
| Raised (message : string). (* toBlob itself throws *)

(** The encoder of the browser: the canvas, the requested media type and the
    optional quality argument. *)
Definition Encoder := Canvas -> string -> option number -> ToBlob.

Definition hasPixels (c : Canvas) : bool :=
  (0 <? canvas_width c) && (0 <? canvas_height c).

(** An encoder that follows the HTML standard on empty bitmaps (null when
    the canvas has no pixels) and otherwise honours the requested type; the
    length it reports is a placeholder. *)
Definition htmlEncoder : Encoder := fun c type q =>
  if hasPixels c then Encoded (Blob.mk type (canvas_width c * canvas_height c))
  else NullBlob.

(** The state the processor works on: its private canvas and the progress
    records handed to [onProgress] so far, oldest first. *)
Record World := mkWorld { canvas : Canvas; emitted : list ProcessingProgress.t }.

Inductive Outcome (A : Type) :=
| Return (a : A)
| Throw (message : string).
Arguments Return {A} a.
Arguments Throw {A} message.

(** Asynchronous computations that may reject. *)
Definition Async (A : Type) : Type := World -> Outcome A * World.

Definition ret {A} (a : A) : Async A := fun w => (Return a, w).

Definition throw {A} (message : string) : Async A := fun w => (Throw message, w).

Definition bind {A B} (c : Async A) (k : A -> Async B) : Async B :=
  fun w => match c w with
           | (Return a, w') => k a w'
           | (Throw e, w') => (Throw e, w')
           end.

Definition tryCatch {A} (c : Async A) (handler : string -> Async A) : Async A :=
  fun w => match c w with
           | (Return a, w') => (Return a, w')
           | (Throw e, w') => handler e w'
           end.

Notation "x <- c ;; k" := (bind c (fun x => k))
  (at level 61, c at next level, right associativity).
Notation "c ;;; k" := (bind c (fun _ => k))
  (at level 61, right associativity).

Definition setCanvasSize (w h : Z) : Async unit :=
  fun s => (Return tt, mkWorld (mkCanvas (canvasDim 300 w) (canvasDim 150 h)) (emitted s)).

Definition onProgress (p : ProcessingProgress.t) : Async unit :=
  fun s => (Return tt, mkWorld (canvas s) (emitted s ++ [p])%list).

(** [for (const x of xs) body], the loop-carried locals passed along. *)
Fixpoint forOf {A S} (xs : list A) (body : A -> S -> Async S) (s : S) : Async S :=
  match xs with
  | [] => ret s
  | x :: xs' => s' <- body x s ;; forOf xs' body s'
  end.

(* ================================================================== *)
(** ** [ImageProcessor] *)

Section ImageProcessor.

Variable toBlob : Encoder.

(** The call to [canvas.toBlob] made by [canvasToBlob]: PNG without a
    quality argument when the format is PNG or the lossless option is set,
    the format's own type at [quality / 100] otherwise. *)
Definition requestBlob (format : ImageFormat.t) (options : ProcessingOptions.t)
    (c : Canvas) : ToBlob :=
  if (ImageFormat.extension format =? "png")%string
     || ProcessingOptions.lossless options
  then toBlob c "image/png" None
  else
    let quality := div (of_Z (ProcessingOptions.quality options)) (of_Z 100) in
    toBlob c (ImageFormat.mimeType format) (Some quality).

Definition canvasToBlob (format : ImageFormat.t) (options : ProcessingOptions.t)
  : Async Blob.t :=
  fun w =>
    match requestBlob format options (canvas w) with
    | Encoded blob => (Return blob, w)
    | NullBlob => (Throw "Failed to create blob", w)
    | Raised message => (Throw ("Canvas to blob conversion failed: " ++ message), w)
    end.

(** The three values computed at the head of [createResizedImage]. *)
Definition aspectRatio (img : HTMLImageElement.t) : number :=
  div (of_Z (HTMLImageElement.height img)) (of_Z (HTMLImageElement.width img)).

Definition finalWidth (img : HTMLImageElement.t) (targetWidth : Z) : Z :=
  Z.min targetWidth (HTMLImageElement.width img).

Definition finalHeight (img : HTMLImageElement.t) (targetWidth : Z) : number :=
  Math_round (mul (of_Z (finalWidth img targetWidth)) (aspectRatio img)).

Definition createResizedImage (img : HTMLImageElement.t) (targetWidth : Z)
    (format : ImageFormat.t) (options : ProcessingOptions.t) (sizeSuffix : string)
  : Async ProcessedImage.t :=
  tryCatch
    (let finalWidth := finalWidth img targetWidth in
     let finalHeight := finalHeight img targetWidth in
     setCanvasSize (ulong_of_Z finalWidth) (ulong_of_number finalHeight) ;;;
     blob <- canvasToBlob format options ;;
     let name := "image-" ++ sizeSuffix ++ "." ++ ImageFormat.extension format in
     ret (ProcessedImage.mk name blob (Blob.size blob)
            (ProcessedImage.mkDims finalWidth finalHeight)))
    (fun message =>
       throw ("Failed to create " ++ sizeSuffix ++ " image: " ++ message)).

Definition loadImage (file : File.t) : Async HTMLImageElement.t :=
  match File.image file with
  | Some img => ret img
  | None => throw "Failed to load image"
  end.

(** The locals of [processImage] that the loops update. *)
Record Locals := mkLocals { results : list ProcessedImage.t; currentStep : Z }.

(** The body of the inner loop for one breakpoint and one format. *)
Definition processPair (img : HTMLImageElement.t) (options : ProcessingOptions.t)
    (totalSteps : Z) (breakpoint : Breakpoint.t) (format : ImageFormat.t)
    (l : Locals) : Async Locals :=
  if ProcessingOptions.lossless options
     && (ImageFormat.extension format =? "jpg")%string
  then ret l
  else
    standardImage <-
      createResizedImage img (Breakpoint.width breakpoint) format options
        (toString (Breakpoint.width breakpoint)) ;;
    let l := mkLocals (results l ++ [standardImage])%list (currentStep l + 1) in
    onProgress (ProcessingProgress.mk (currentStep l) totalSteps
                  ("Processing " ++ Breakpoint.name breakpoint ++ " "
                     ++ ImageFormat.name format)) ;;;
    if ProcessingOptions.includeRetina options then
      retinaImage <-
        createResizedImage img (Breakpoint.width breakpoint * 2) format options
          (toString (Breakpoint.width breakpoint) ++ "@2x") ;;
      let l := mkLocals (results l ++ [retinaImage])%list (currentStep l + 1) in
      onProgress (ProcessingProgress.mk (currentStep l) totalSteps
                    ("Processing " ++ Breakpoint.name breakpoint ++ " "
                       ++ ImageFormat.name format ++ " @2x")) ;;;
      ret l
    else ret l.

Definition totalSteps (options : ProcessingOptions.t) : Z :=
  Z.of_nat (List.length (ProcessingOptions.breakpoints options))
  * Z.of_nat (List.length (ProcessingOptions.formats options))
  * (if ProcessingOptions.includeRetina options then 2 else 1).

Definition processImage (file : File.t) (options : ProcessingOptions.t)
  : Async (list ProcessedImage.t) :=
  tryCatch
    (img <- loadImage file ;;
     l <- forOf (ProcessingOptions.breakpoints options)
            (fun breakpoint =>
               forOf (ProcessingOptions.formats options)
                 (processPair img options (totalSteps options) breakpoint))
            (mkLocals [] 0) ;;
     ret (results l))
    (fun message => throw ("Failed to process image: " ++ message)).

End ImageProcessor.

(* ================================================================== *)
(** ** [App.handleProcess] *)

Record AppState := mkApp {
  selectedFile : option File.t;
  options : ProcessingOptions.t;
  error : string;
  isProcessing : bool;
  progress : option ProcessingProgress.t;
  processedImages : list ProcessedImage.t;
  isComplete : bool
}.

(** [handleProcess] returns the state it leaves and the records that went
    through [setProgress] while it ran. *)
Definition handleProcess (toBlob : Encoder) (st : AppState)
  : AppState * list ProcessingProgress.t :=
  match selectedFile st with
  | Some file =>
      if (List.length (ProcessingOptions.formats (options st)) =? 0)%nat
         || (List.length (ProcessingOptions.breakpoints (options st)) =? 0)%nat
      then
        (mkApp (selectedFile st) (options st) "Please select formats and breakpoints"
           (isProcessing st) (progress st) (processedImages st) (isComplete st), [])
      else
        match processImage toBlob file (options st) (mkWorld createCanvas []) with
        | (Return images, w) =>
            (mkApp (selectedFile st) (options st) EmptyString false None images true, emitted w)
        | (Throw _, w) =>
            (mkApp (selectedFile st) (options st)
               "Failed to process images. Please try again."
               false None (processedImages st) false, emitted w)
        end
  | None =>
      (mkApp (selectedFile st) (options st) "Please select formats and breakpoints"
         (isProcessing st) (progress st) (processedImages st) (isComplete st), [])
  end.

(* ================================================================== *)
(** ** [ImageQualityAnalyzer] *)

(** [ImageData]: RGBA bytes in row-major order, and the bitmap size. *)
Module ImageData.
Record t := mk { data : list Z; width : Z; height : Z }.
End ImageData.

Inductive BlurLevel := sharp | moderate | blurry | very_blurry.

Module ImageQualityMetrics.
Record t := mk { sharpness : number; blurLevel : BlurLevel; confidence : number }.
End ImageQualityMetrics.

(** [data[i]]: reading past the end of the array gives [undefined], which
    the arithmetic that follows turns into NaN. *)
Definition channel (data : list Z) (i : nat) : number :=
  match nth_error data i with
  | Some v => of_Z v
  | None => NaN
  end.

(** [0.299 * r + 0.587 * g + 0.114 * b] *)
Definition luminance (r g b : number) : number :=
  add (add (mul (lit 299 1000) r) (mul (lit 587 1000) g)) (mul (lit 114 1000) b).

(** The indices [0, step, 2*step, ...] below [len]. *)
Definition strided (step len : nat) : list nat :=
  map (fun k => (k * step)%nat) (seq 0 ((len + step - 1) / step)).

Definition luminanceAt (data : list Z) (i : nat) : number :=
  luminance (channel data i) (channel data (i + 1)) (channel data (i + 2)).

(** The [gray] array after the first loop of [calculateLaplacianVariance]:
    slot [i / 4] holds the luminance of the pixel at byte offset [i]. *)
Definition grayscale (data : list Z) : list number :=
  map (luminanceAt data) (strided 4 (List.length data)).

(** [gray[pixelIndex]]; a slot that was never written reads as NaN. *)
Definition grayAt (gray : list number) (pixelIndex : Z) : number :=
  if pixelIndex <? 0 then NaN
  else match nth_error gray (Z.to_nat pixelIndex) with
       | Some v => v
       | None => NaN
       end.

Definition kernel : list (list Z) := [[0; -1; 0]; [-1; 4; -1]; [0; -1; 0]].

Definition kernelAt (ky kx : Z) : Z :=
  nth (Z.to_nat kx) (nth (Z.to_nat ky) kernel []) 0.

(** The integers [lo, lo+1, ..., hi-1]. *)
Definition range (lo hi : Z) : list Z :=
  map (fun k => lo + Z.of_nat k) (seq 0 (Z.to_nat (hi - lo))).

(** The response of the kernel at the interior pixel [(x, y)]. *)
Definition laplacianAt (gray : list number) (width x y : Z) : number :=
  fold_left
    (fun sum ky =>
       fold_left
         (fun sum kx =>
            let pixelIndex := (y + ky - 1) * width + (x + kx - 1) in
            add sum (mul (grayAt gray pixelIndex) (of_Z (kernelAt ky kx))))
         (range 0 3) sum)
    (range 0 3) (of_Z 0).

Definition laplacianValues (imageData : ImageData.t) : list number :=
  let gray := grayscale (ImageData.data imageData) in
  let width := ImageData.width imageData in
  let height := ImageData.height imageData in
  flat_map (fun y => map (fun x => laplacianAt gray width x y) (range 1 (width - 1)))
           (range 1 (height - 1)).

(** [Math.pow(v, 2)], taken as the correctly rounded square. *)
Definition pow2 (v : number) : number := mul v v.

Definition calculateLaplacianVariance (imageData : ImageData.t) : number :=
  let laplacian := laplacianValues imageData in
  let n := of_Z (Z.of_nat (List.length laplacian)) in
  let mean := div (fold_left (fun sum val => add sum val) laplacian (of_Z 0)) n in
  let variance :=
    div (fold_left (fun sum val => add sum (pow2 (sub val mean))) laplacian (of_Z 0)) n in
  variance.

Definition classifyBlurLevel (sharpness : number) : BlurLevel :=
  if gtb sharpness (of_Z 1000) then sharp
  else if gtb sharpness (of_Z 500) then moderate
  else if gtb sharpness (of_Z 100) then blurry
  else very_blurry.

Definition calculateContrast (imageData : ImageData.t) : number :=
  let data := ImageData.data imageData in
  let luminances := map (luminanceAt data) (strided 40 (List.length data)) in
  let min := Math_min luminances in
  let max := Math_max luminances in
  sub max min.

Definition calculateConfidence (imageElement : HTMLImageElement.t)
    (imageData : ImageData.t) : number :=
  let confidence := lit 5 10 in
  let pixelCount := HTMLImageElement.width imageElement * HTMLImageElement.height imageElement in
  let confidence :=
    if pixelCount >? 2000000 then add confidence (lit 3 10)
    else if pixelCount >? 500000 then add confidence (lit 2 10)
    else if pixelCount <? 100000 then sub confidence (lit 2 10)
    else confidence in
  let contrast := calculateContrast imageData in
  let confidence :=
    if gtb contrast (of_Z 50) then add confidence (lit 2 10)
    else if ltb contrast (of_Z 20) then sub confidence (lit 1 10)
    else confidence in
  Math_max2 (of_Z 0) (Math_min2 (of_Z 1) confidence).

(** [analyzeImage]; [getImageData w h] stands for drawing the element on
    the analyzer's canvas at [w] by [h] and reading the bitmap back. *)
Definition analyzeImage (getImageData : Z -> Z -> ImageData.t)
    (imageElement : HTMLImageElement.t) : ImageQualityMetrics.t :=
  let sampleWidth := Z.min (HTMLImageElement.width imageElement) 800 in
  let sampleHeight := Z.min (HTMLImageElement.height imageElement) 600 in
  let imageData := getImageData sampleWidth sampleHeight in
  let sharpness := calculateLaplacianVariance imageData in
  let blurLevel := classifyBlurLevel sharpness in
  let confidence := calculateConfidence imageElement imageData in
  ImageQualityMetrics.mk sharpness blurLevel confidence.

(** A bitmap of one colour. *)
Definition solid (r g b : Z) (width height : Z) : ImageData.t :=
  ImageData.mk (List.concat (repeat [r; g; b; 255] (Z.to_nat (width * height)))) width height.

(* ================================================================== *)
(** ** Reference definitions used to state the properties *)

(** The bitmap size [createResizedImage] gives the canvas. *)
Definition resizedCanvas (img : HTMLImageElement.t) (targetWidth : Z) : Canvas :=
  mkCanvas (canvasDim 300 (ulong_of_Z (finalWidth img targetWidth)))
           (canvasDim 150 (ulong_of_number (finalHeight img targetWidth))).

Definition blobOf (o : ToBlob) : Blob.t :=
  match o with
  | Encoded b => b
  | _ => Blob.mk EmptyString 0
  end.

(** What [canvasToBlob] settles with once [canvas.toBlob] has answered: the
    callback resolves with the blob and rejects on null, the catch clause
    rejects when the call itself threw. *)
Definition settleBlob (answer : ToBlob) : Async Blob.t :=
  fun w =>
    match answer with
    | Encoded blob => (Return blob, w)
    | NullBlob => (Throw "Failed to create blob", w)
    | Raised message => (Throw ("Canvas to blob conversion failed: " ++ message), w)
    end.

(** The record [createResizedImage] resolves to when the encoder delivers a
    blob. *)
Definition resized (toBlob : Encoder) (img : HTMLImageElement.t) (targetWidth : Z)
    (format : ImageFormat.t) (options : ProcessingOptions.t) (sizeSuffix : string)
  : ProcessedImage.t :=
  let blob := blobOf (requestBlob toBlob format options (resizedCanvas img targetWidth)) in
  ProcessedImage.mk ("image-" ++ sizeSuffix ++ "." ++ ImageFormat.extension format)
    blob (Blob.size blob)
    (ProcessedImage.mkDims (finalWidth img targetWidth) (finalHeight img targetWidth)).

Definition skipped (options : ProcessingOptions.t) (format : ImageFormat.t) : bool :=
  ProcessingOptions.lossless options && (ImageFormat.extension format =? "jpg")%string.

(** The derivatives of one breakpoint and one format, in emission order. *)
Definition pairImages (toBlob : Encoder) (img : HTMLImageElement.t)
    (options : ProcessingOptions.t) (breakpoint : Breakpoint.t) (format : ImageFormat.t)
  : list ProcessedImage.t :=
  if skipped options format then []
  else
    resized toBlob img (Breakpoint.width breakpoint) format options
      (toString (Breakpoint.width breakpoint))
    :: (if ProcessingOptions.includeRetina options
        then [resized toBlob img (Breakpoint.width breakpoint * 2) format options
                (toString (Breakpoint.width breakpoint) ++ "@2x")]
        else []).

(** The labels of the progress records of one breakpoint and one format. *)
Definition pairTasks (options : ProcessingOptions.t) (breakpoint : Breakpoint.t)
    (format : ImageFormat.t) : list string :=
  if skipped options format then []
  else
    ("Processing " ++ Breakpoint.name breakpoint ++ " " ++ ImageFormat.name format)
    :: (if ProcessingOptions.includeRetina options
        then ["Processing " ++ Breakpoint.name breakpoint ++ " "
                ++ ImageFormat.name format ++ " @2x"]
        else []).

(** The names of one breakpoint and one format. *)
Definition pairNames (options : ProcessingOptions.t) (breakpoint : Breakpoint.t)
    (format : ImageFormat.t) : list string :=
  if skipped options format then []
  else
    ("image-" ++ toString (Breakpoint.width breakpoint) ++ "."
       ++ ImageFormat.extension format)
    :: (if ProcessingOptions.includeRetina options
        then ["image-" ++ (toString (Breakpoint.width breakpoint) ++ "@2x") ++ "."
                ++ ImageFormat.extension format]
        else []).

Definition allImages (toBlob : Encoder) (img : HTMLImageElement.t)
    (options : ProcessingOptions.t) : list ProcessedImage.t :=
  flat_map (fun breakpoint =>
              flat_map (pairImages toBlob img options breakpoint)
                       (ProcessingOptions.formats options))
           (ProcessingOptions.breakpoints options).

Definition allTasks (options : ProcessingOptions.t) : list string :=
  flat_map (fun breakpoint =>
              flat_map (pairTasks options breakpoint) (ProcessingOptions.formats options))
           (ProcessingOptions.breakpoints options).

Definition allNames (options : ProcessingOptions.t) : list string :=
  flat_map (fun breakpoint =>
              flat_map (pairNames options breakpoint) (ProcessingOptions.formats options))
           (ProcessingOptions.breakpoints options).

(** Progress records numbered from [current + 1], all with the same total. *)
Fixpoint progressFrom (current total : Z) (tasks : list string)
  : list ProcessingProgress.t :=
  match tasks with
  | [] => []
  | task :: tasks' =>
      ProcessingProgress.mk (current + 1) total task
      :: progressFrom (current + 1) total tasks'
  end.

(** Every canvas the run draws on has pixels. *)
Definition sizesOk (img : HTMLImageElement.t) (options : ProcessingOptions.t) : bool :=
  forallb (fun breakpoint =>
             hasPixels (resizedCanvas img (Breakpoint.width breakpoint))
             && (negb (ProcessingOptions.includeRetina options)
                 || hasPixels (resizedCanvas img (Breakpoint.width breakpoint * 2))))
          (ProcessingOptions.breakpoints options).

(** The encoder delivers a blob for every canvas that has pixels. *)
Definition encodesPixels (toBlob : Encoder) : Prop :=
  forall c type q, hasPixels c = true -> exists b, toBlob c type q = Encoded b.

(** The encoder delivers no blob for a canvas without pixels. *)
Definition rejectsEmpty (toBlob : Encoder) : Prop :=
  forall c type q b, hasPixels c = false -> toBlob c type q <> Encoded b.

Definition isJpeg (format : ImageFormat.t) : bool :=
  (ImageFormat.extension format =? "jpg")%string.

Definition retinaFactor (options : ProcessingOptions.t) : Z :=
  if ProcessingOptions.includeRetina options then 2 else 1.

(** The count of the specification: [JPEG in formats] is subtracted once per
    breakpoint. *)
Definition statedCount (options : ProcessingOptions.t) : Z :=
  let b := Z.of_nat (List.length (ProcessingOptions.breakpoints options)) in
  let f := Z.of_nat (List.length (ProcessingOptions.formats options)) in
  b * f * retinaFactor options
  - (if ProcessingOptions.lossless options
     then b * (if existsb isJpeg (ProcessingOptions.formats options) then 1 else 0)
     else 0).

(** The count of the program: every skipped format takes its retina
    variant with it. *)
Definition derivativeCount (options : ProcessingOptions.t) : Z :=
  let b := Z.of_nat (List.length (ProcessingOptions.breakpoints options)) in
  let f := Z.of_nat (List.length (ProcessingOptions.formats options)) in
  let j := Z.of_nat (List.length (filter isJpeg (ProcessingOptions.formats options))) in
  b * f * retinaFactor options
  - (if ProcessingOptions.lossless options then b * j * retinaFactor options else 0).

(** [s] ends in [suffix]. *)
Definition endsWith (suffix s : string) : bool :=
  let n := String.length suffix in
  let m := String.length s in
  (n <=? m)%nat && (substring (m - n) n s =? suffix)%string.

(** Round-half-up of the rational [n / d], [d > 0], in exact arithmetic. *)
Definition roundHalfUp (n d : Z) : Z := (2 * n + d) / (2 * d).

(** [x] clamped to [lo, hi]. *)
Definition clamp (lo hi x : number) : number := Math_max2 lo (Math_min2 hi x).








(** Inputs of the scenarios. *)
Definition source4K : File.t := File.mk "source.png" (Some (HTMLImageElement.mk 3840 2160)).

Definition bp1080p : Breakpoint.t := Breakpoint.mk "1080p" 1920 "Full HD displays".
Definition bpMobile : Breakpoint.t := Breakpoint.mk "Mobile" 768 "Mobile devices".

Definition scenarioOptions : ProcessingOptions.t :=
  ProcessingOptions.mk false 85 [WebP; JPEG] [bp1080p; bpMobile] true.

Definition losslessOptions (includeRetina : bool) : ProcessingOptions.t :=
  ProcessingOptions.mk true 85 [JPEG; PNG] [bpMobile] includeRetina.

Definition freshWorld : World := mkWorld createCanvas [].

(* ================================================================== *)
(** ** [DropZone], [App.handleFileSelect] and the Process button *)

Definition ACCEPTED_FILE_TYPES : list string :=
  ["image/png"; "image/jpeg"; "image/webp"; "image/tiff"].

Definition MAX_FILE_SIZE : Z := 50 * 1024 * 1024.

(** [xs.includes(x)] on strings. *)
Definition includes (xs : list string) (x : string) : bool :=
  existsb (String.eqb x) xs.

(** A [File] as the upload code reads it: the media type and the length in
    bytes travel with the file. *)
Module Upload.
Record t := mk { file : File.t; type : string; size : Z }.
End Upload.

(** [DropZone.handleDrop]: the file handed to [onFileSelect], if any. *)
Definition handleDrop (files : list Upload.t) : option Upload.t :=
  match find (fun file => includes ACCEPTED_FILE_TYPES (Upload.type file)) files with
  | Some imageFile =>
      if Upload.size imageFile <=? MAX_FILE_SIZE then Some imageFile else None
  | None => None
  end.

(** [DropZone.handleFileInput]: only [files[0]] is looked at. *)
Definition handleFileInput (files : list Upload.t) : option Upload.t :=
  match files with
  | file :: _ =>
      if includes ACCEPTED_FILE_TYPES (Upload.type file)
         && (Upload.size file <=? MAX_FILE_SIZE)
      then Some file else None
  | [] => None
  end.

Record Dimensions := mkDimensions { dimWidth : Z; dimHeight : Z }.

(** The state of [App] with the two fields [handleProcess] does not touch. *)
Record AppView := mkView {
  appState : AppState;
  imageDimensions : option Dimensions;
  isDragOver : bool
}.

(** [App.handleFileSelect], taken up to the [onload] event of the probe
    image, which sets [imageDimensions] when the file decodes. *)
Definition handleFileSelect (upload : Upload.t) (v : AppView) : AppView :=
  let st := appState v in
  let cleared (error : string) (file : option File.t) (dims : option Dimensions) :=
    mkView (mkApp file (options st) error (isProcessing st) (progress st) [] false)
      dims (isDragOver v) in
  if negb (includes ACCEPTED_FILE_TYPES (Upload.type upload)) then
    cleared "Please select a valid image file (PNG, JPEG, WebP, or TIFF)"
      (selectedFile st) None
  else if Upload.size upload >? MAX_FILE_SIZE then
    cleared ("File size must be less than " ++ toString (MAX_FILE_SIZE / 1024 / 1024) ++ "MB")
      (selectedFile st) None
  else
    cleared EmptyString (Some (Upload.file upload))
      match File.image (Upload.file upload) with
      | Some img =>
          Some (mkDimensions (HTMLImageElement.width img) (HTMLImageElement.height img))
      | None => None
      end.

(** [canProcess], the condition that enables the Process button. *)
Definition canProcess (st : AppState) : bool :=
  match selectedFile st with
  | Some _ =>
      negb (isProcessing st)
      && (0 <? List.length (ProcessingOptions.formats (options st)))%nat
      && (0 <? List.length (ProcessingOptions.breakpoints (options st)))%nat
  | None => false
  end.

(* ================================================================== *)
(** ** The [ProcessingOptions] component *)

Definition withFormats (options : ProcessingOptions.t) (formats : list ImageFormat.t)
  : ProcessingOptions.t :=
  ProcessingOptions.mk (ProcessingOptions.lossless options)
    (ProcessingOptions.quality options) formats
    (ProcessingOptions.breakpoints options) (ProcessingOptions.includeRetina options).

Definition withBreakpoints (options : ProcessingOptions.t)
    (breakpoints : list Breakpoint.t) : ProcessingOptions.t :=
  ProcessingOptions.mk (ProcessingOptions.lossless options)
    (ProcessingOptions.quality options) (ProcessingOptions.formats options)
    breakpoints (ProcessingOptions.includeRetina options).

Definition sameExtension (a b : ImageFormat.t) : bool :=
  (ImageFormat.extension a =? ImageFormat.extension b)%string.

(** [handleFormatToggle]: the options handed to [onChange]; [None] when
    [IMAGE_FORMATS[formatIndex]] is undefined and reading its extension
    throws. *)
Definition handleFormatToggle (options : ProcessingOptions.t) (formatIndex : nat)
  : option ProcessingOptions.t :=
  match nth_error IMAGE_FORMATS formatIndex with
  | None => None
  | Some format =>
      let newFormats := ProcessingOptions.formats options in
      if existsb (fun f => sameExtension f format) newFormats then
        Some (withFormats options
                (filter (fun f => negb (sameExtension f format)) newFormats))
      else Some (withFormats options (newFormats ++ [format])%list)
  end.

Definition requiredWidth (options : ProcessingOptions.t) (breakpoint : Breakpoint.t) : Z :=
  if ProcessingOptions.includeRetina options
  then Breakpoint.width breakpoint * 2 else Breakpoint.width breakpoint.

(** The [isDisabled] flag of a breakpoint button. *)
Definition isDisabled (options : ProcessingOptions.t) (dims : option Dimensions)
    (breakpoint : Breakpoint.t) : bool :=
  match dims with
  | Some d => requiredWidth options breakpoint >? dimWidth d
  | None => false
  end.

(** [isRetinaDisabled] *)
Definition isRetinaDisabled (dims : option Dimensions) : bool :=
  match dims with
  | Some d => dimWidth d <? 960
  | None => false
  end.

(** [xs.sort((a, b) => b.width - a.width)]: the sort is stable, so with
    this comparator its result is the stable arrangement by descending
    width, which insertion from the right computes. *)
Fixpoint insertByWidth (x : Breakpoint.t) (xs : list Breakpoint.t) : list Breakpoint.t :=
  match xs with
  | [] => [x]
  | y :: ys =>
      if Breakpoint.width x <? Breakpoint.width y then y :: insertByWidth x ys
      else x :: y :: ys
  end.

Definition sortByWidthDescending (xs : list Breakpoint.t) : list Breakpoint.t :=
  fold_right insertByWidth [] xs.

Definition sameWidth (a b : Breakpoint.t) : bool :=
  Breakpoint.width a =? Breakpoint.width b.

(** [handleBreakpointToggle]: the options the component is left with (the
    ones it was given when it returns early); [None] when
    [DEFAULT_BREAKPOINTS[breakpointIndex]] is undefined. *)
Definition handleBreakpointToggle (options : ProcessingOptions.t)
    (dims : option Dimensions) (breakpointIndex : nat) : option ProcessingOptions.t :=
  match nth_error DEFAULT_BREAKPOINTS breakpointIndex with
  | None => None
  | Some breakpoint =>
      let newBreakpoints := ProcessingOptions.breakpoints options in
      if isDisabled options dims breakpoint then Some options
      else if existsb (fun b => sameWidth b breakpoint) newBreakpoints then
        Some (withBreakpoints options
                (filter (fun b => negb (sameWidth b breakpoint)) newBreakpoints))
      else
        Some (withBreakpoints options
                (sortByWidthDescending (newBreakpoints ++ [breakpoint])%list))
  end.

(** The effect that runs when [includeRetina] or [imageDimensions] change:
    breakpoints that would be upscaled are dropped. *)
Definition validBreakpointsEffect (options : ProcessingOptions.t)
    (dims : option Dimensions) : ProcessingOptions.t :=
  match dims with
  | None => options
  | Some d =>
      let validBreakpoints :=
        filter (fun bp => requiredWidth options bp <=? dimWidth d)
               (ProcessingOptions.breakpoints options) in
      if negb (List.length validBreakpoints
               =? List.length (ProcessingOptions.breakpoints options))%nat
      then withBreakpoints options validBreakpoints
      else options
  end.

(** The order the breakpoint list is kept in: never a wider breakpoint
    after a narrower one. *)
Definition widerFirst (a b : Breakpoint.t) : Prop :=
  Breakpoint.width b <= Breakpoint.width a.

Definition fits (options : ProcessingOptions.t) (d : Dimensions) (bp : Breakpoint.t) : bool :=
  requiredWidth options bp <=? dimWidth d.

(** The widths a run is asked for, in the order of its derivatives. *)
Definition targetWidths (options : ProcessingOptions.t) : list Z :=
  flat_map (fun breakpoint =>
              flat_map (fun format =>
                          if skipped options format then []
                          else Breakpoint.width breakpoint
                               :: (if ProcessingOptions.includeRetina options
                                   then [Breakpoint.width breakpoint * 2] else []))
                       (ProcessingOptions.formats options))
           (ProcessingOptions.breakpoints options).

(* ================================================================== *)
(** ** The [ProcessingProgress] component *)

(** [percentage]: [Math.round((current / total) * 100)], or 100 when there
    is no progress record. *)
Definition percentage (progress : option ProcessingProgress.t) : number :=
  match progress with
  | Some p =>
      Math_round (mul (div (of_Z (ProcessingProgress.current p))
                           (of_Z (ProcessingProgress.total p)))
                      (of_Z 100))
  | None => of_Z 100
  end.

(* ================================================================== *)
(** ** The [ImagePreview] component *)

(** [gcd] of [getAspectRatio]; [a % b] is the truncated remainder. *)
Function gcd (a b : Z) {measure Z.abs_nat b} : Z :=
  if b =? 0 then a else gcd b (Z.rem a b).
Proof.
  intros a b Hb. apply Z.eqb_neq in Hb.
  pose proof (Z.rem_bound_abs a b Hb). lia.
Defined.

(** [`${x / divisor}`] where [divisor] is the gcd: the quotient is an
    integer, or NaN on [0 / 0]. *)
Definition ratioTerm (x divisor : Z) : string :=
  if divisor =? 0 then "NaN" else toString (x / divisor).

Definition commonRatios : list (string * string) :=
  [ ("16:9", "16:9"); ("4:3", "4:3"); ("3:2", "3:2");
    ("1:1", "1:1"); ("21:9", "21:9"); ("9:16", "9:16") ].

Fixpoint lookup (key : string) (table : list (string * string)) : option string :=
  match table with
  | [] => None
  | (k, v) :: rest => if (k =? key)%string then Some v else lookup key rest
  end.

(** [getAspectRatio]; [None] is [null]. *)
Definition getAspectRatio (dimensions : option Dimensions) : option string :=
  match dimensions with
  | None => None
  | Some d =>
      let divisor := gcd (dimWidth d) (dimHeight d) in
      let ratioKey := ratioTerm (dimWidth d) divisor ++ ":" ++ ratioTerm (dimHeight d) divisor in
      match lookup ratioKey commonRatios with
      | Some v => if (v =? EmptyString)%string then Some ratioKey else Some v
      | None => Some ratioKey
      end
  end.

(** The [level] of [getQualityAssessment]. *)
Definition getQualityAssessment (dimensions : option Dimensions) : option string :=
  match dimensions with
  | None => None
  | Some d =>
      let width := dimWidth d in
      if width >=? 3840 then Some "excellent"
      else if width >=? 2560 then Some "good"
      else if width >=? 1920 then Some "adequate"
      else Some "limited"
  end.

(* ================================================================== *)
(** * Properties *)

(** ** The processor, step by step *)

Section ProcessorFacts.

Variable toBlob : Encoder.

Lemma createResizedImage_eq img targetWidth format options sizeSuffix w :
  createResizedImage toBlob img targetWidth format options sizeSuffix w =
  let w' := mkWorld (resizedCanvas img targetWidth) (emitted w) in
  match requestBlob toBlob format options (resizedCanvas img targetWidth) with
  | Encoded _ =>
      (Return (resized toBlob img targetWidth format options sizeSuffix), w')
  | NullBlob =>
      (Throw ("Failed to create " ++ sizeSuffix ++ " image: " ++ "Failed to create blob"),
       w')
  | Raised message =>
      (Throw ("Failed to create " ++ sizeSuffix ++ " image: "
                ++ ("Canvas to blob conversion failed: " ++ message)), w')
  end.
Proof.
  unfold createResizedImage, tryCatch, bind, setCanvasSize, canvasToBlob, resized.
  cbn [canvas emitted]. fold (resizedCanvas img targetWidth).
  destruct (requestBlob toBlob format options (resizedCanvas img targetWidth));
    reflexivity.
Qed.

Lemma createResizedImage_ok img targetWidth format options sizeSuffix w :
  encodesPixels toBlob ->
  hasPixels (resizedCanvas img targetWidth) = true ->
  createResizedImage toBlob img targetWidth format options sizeSuffix w =
  (Return (resized toBlob img targetWidth format options sizeSuffix),
   mkWorld (resizedCanvas img targetWidth) (emitted w)).
Proof.
  intros Henc Hpx. rewrite createResizedImage_eq. cbv zeta.
  unfold requestBlob.
  destruct ((ImageFormat.extension format =? "png")%string
            || ProcessingOptions.lossless options).
  - destruct (Henc (resizedCanvas img targetWidth) "image/png" None Hpx) as [b ->].
    reflexivity.
  - destruct (Henc (resizedCanvas img targetWidth) (ImageFormat.mimeType format)
                (Some (div (of_Z (ProcessingOptions.quality options)) (of_Z 100))) Hpx)
      as [b ->].
    reflexivity.
Qed.

(** One iteration of the inner loop, when both canvases can be encoded. *)
Lemma processPair_ok img options total breakpoint format l w :
  encodesPixels toBlob ->
  hasPixels (resizedCanvas img (Breakpoint.width breakpoint)) = true ->
  (ProcessingOptions.includeRetina options = true ->
   hasPixels (resizedCanvas img (Breakpoint.width breakpoint * 2)) = true) ->
  exists c,
    processPair toBlob img options total breakpoint format l w =
    (Return (mkLocals
               (results l ++ pairImages toBlob img options breakpoint format)%list
               (currentStep l
                + Z.of_nat (List.length (pairTasks options breakpoint format)))),
     mkWorld c
       (emitted w
          ++ progressFrom (currentStep l) total (pairTasks options breakpoint format))%list).
Proof.
  intros Henc H1 H2.
  unfold processPair, pairImages, pairTasks, skipped.
  destruct (ProcessingOptions.lossless options
            && (ImageFormat.extension format =? "jpg")%string).
  - exists (canvas w). unfold ret. cbn [List.length progressFrom].
    rewrite !app_nil_r, Z.add_0_r. destruct l, w; reflexivity.
  - unfold bind at 1. rewrite (createResizedImage_ok _ _ _ _ _ _ Henc H1).
    unfold bind at 1. unfold onProgress at 1. cbn [results currentStep canvas emitted].
    destruct (ProcessingOptions.includeRetina options).
    + unfold bind at 1. rewrite (createResizedImage_ok _ _ _ _ _ _ Henc (H2 eq_refl)).
      unfold bind, onProgress, ret. cbn [results currentStep canvas emitted].
      eexists. cbn [List.length progressFrom].
      rewrite <- !app_assoc. cbn [app].
      replace (currentStep l + Z.of_nat 2) with (currentStep l + 1 + 1) by lia.
      reflexivity.
    + unfold ret. eexists. cbn [List.length progressFrom].
      replace (currentStep l + Z.of_nat 1) with (currentStep l + 1) by lia.
      reflexivity.
Qed.

Lemma progressFrom_app current total xs ys :
  progressFrom current total (xs ++ ys)%list =
  (progressFrom current total xs
     ++ progressFrom (current + Z.of_nat (List.length xs)) total ys)%list.
Proof.
  revert current. induction xs as [|x xs IH]; intros current; cbn [app progressFrom List.length].
  - now rewrite Z.add_0_r.
  - rewrite IH. do 3 f_equal. lia.
Qed.

Lemma progressFrom_bounds current total tasks p :
  In p (progressFrom current total tasks) ->
  ProcessingProgress.total p = total
  /\ current < ProcessingProgress.current p <= current + Z.of_nat (List.length tasks).
Proof.
  revert current. induction tasks as [|task tasks IH]; intros current Hin; [destruct Hin|].
  cbn [progressFrom] in Hin. destruct Hin as [<-|Hin].
  - cbn [ProcessingProgress.total ProcessingProgress.current List.length]. lia.
  - destruct (IH _ Hin) as [Ht Hc]. cbn [List.length]. split; [exact Ht|lia].
Qed.

Lemma progressFrom_length current total tasks :
  List.length (progressFrom current total tasks) = List.length tasks.
Proof.
  revert current. induction tasks as [|task tasks IH]; intros current; [reflexivity|].
  cbn [progressFrom List.length]. now rewrite IH.
Qed.

(** The inner loop over the formats. *)
Lemma formatsLoop_ok img options total breakpoint formats l w :
  encodesPixels toBlob ->
  hasPixels (resizedCanvas img (Breakpoint.width breakpoint)) = true ->
  (ProcessingOptions.includeRetina options = true ->
   hasPixels (resizedCanvas img (Breakpoint.width breakpoint * 2)) = true) ->
  exists c,
    forOf formats (processPair toBlob img options total breakpoint) l w =
    (Return (mkLocals
               (results l
                  ++ flat_map (pairImages toBlob img options breakpoint) formats)%list
               (currentStep l
                + Z.of_nat (List.length (flat_map (pairTasks options breakpoint) formats)))),
     mkWorld c
       (emitted w
          ++ progressFrom (currentStep l) total
               (flat_map (pairTasks options breakpoint) formats))%list).
Proof.
  intros Henc H1 H2. revert l w.
  induction formats as [|format formats IH]; intros l w.
  - exists (canvas w). cbn. rewrite !app_nil_r, Z.add_0_r. destruct l, w; reflexivity.
  - cbn [forOf flat_map]. unfold bind at 1.
    destruct (processPair_ok img options total breakpoint format l w Henc H1 H2)
      as [c ->].
    destruct (IH (mkLocals
                    (results l ++ pairImages toBlob img options breakpoint format)%list
                    (currentStep l
                     + Z.of_nat (List.length (pairTasks options breakpoint format))))
                 (mkWorld c
                    (emitted w
                       ++ progressFrom (currentStep l) total
                            (pairTasks options breakpoint format))%list))
      as [c' ->].
    exists c'. cbn [results currentStep emitted].
    rewrite progressFrom_app, !length_app, <- !app_assoc, Nat2Z.inj_add, Z.add_assoc.
    reflexivity.
Qed.

(** The outer loop over the breakpoints. *)
Lemma breakpointsLoop_ok img options total formats breakpoints l w :
  encodesPixels toBlob ->
  forallb (fun breakpoint =>
             hasPixels (resizedCanvas img (Breakpoint.width breakpoint))
             && (negb (ProcessingOptions.includeRetina options)
                 || hasPixels (resizedCanvas img (Breakpoint.width breakpoint * 2))))
          breakpoints = true ->
  exists c,
    forOf breakpoints
      (fun breakpoint => forOf formats (processPair toBlob img options total breakpoint))
      l w =
    (Return (mkLocals
               (results l
                  ++ flat_map (fun breakpoint =>
                                 flat_map (pairImages toBlob img options breakpoint) formats)
                       breakpoints)%list
               (currentStep l
                + Z.of_nat (List.length
                              (flat_map (fun breakpoint =>
                                           flat_map (pairTasks options breakpoint) formats)
                                 breakpoints)))),
     mkWorld c
       (emitted w
          ++ progressFrom (currentStep l) total
               (flat_map (fun breakpoint =>
                            flat_map (pairTasks options breakpoint) formats)
                  breakpoints))%list).
Proof.
  intros Henc. revert l w.
  induction breakpoints as [|breakpoint breakpoints IH]; intros l w Hsz.
  - exists (canvas w). cbn. rewrite !app_nil_r, Z.add_0_r. destruct l, w; reflexivity.
  - cbn [forallb] in Hsz. apply andb_true_iff in Hsz as [Hbp Hsz].
    apply andb_true_iff in Hbp as [H1 H2].
    assert (H2' : ProcessingOptions.includeRetina options = true ->
                  hasPixels (resizedCanvas img (Breakpoint.width breakpoint * 2)) = true).
    { intros Hr. rewrite Hr in H2. exact H2. }
    cbn [forOf flat_map]. unfold bind at 1.
    destruct (formatsLoop_ok img options total breakpoint formats l w Henc H1 H2')
      as [c ->].
    destruct (IH (mkLocals
                    (results l
                       ++ flat_map (pairImages toBlob img options breakpoint) formats)%list
                    (currentStep l
                     + Z.of_nat (List.length
                                   (flat_map (pairTasks options breakpoint) formats))))
                 (mkWorld c
                    (emitted w
                       ++ progressFrom (currentStep l) total
                            (flat_map (pairTasks options breakpoint) formats))%list)
                 Hsz)
      as [c' ->].
    exists c'. cbn [results currentStep emitted].
    rewrite progressFrom_app, !length_app, <- !app_assoc, Nat2Z.inj_add, Z.add_assoc.
    reflexivity.
Qed.

(** The whole run: the derivatives and the progress records it leaves. *)
Lemma processImage_ok file img options w :
  File.image file = Some img ->
  encodesPixels toBlob ->
  sizesOk img options = true ->
  exists c,
    processImage toBlob file options w =
    (Return (allImages toBlob img options),
     mkWorld c (emitted w ++ progressFrom 0 (totalSteps options) (allTasks options))%list).
Proof.
  intros Himg Henc Hsz.
  unfold processImage, tryCatch, bind at 1, loadImage. rewrite Himg. unfold ret at 1.
  unfold bind.
  destruct (breakpointsLoop_ok img options (totalSteps options)
              (ProcessingOptions.formats options)
              (ProcessingOptions.breakpoints options) (mkLocals [] 0) w Henc Hsz)
    as [c ->].
  exists c. reflexivity.
Qed.

End ProcessorFacts.

(** ** Counting and naming the derivatives *)

Section Plan.

Variable toBlob : Encoder.
Variable img : HTMLImageElement.t.
Variable options : ProcessingOptions.t.

Lemma pairImages_names breakpoint format :
  map ProcessedImage.name (pairImages toBlob img options breakpoint format) =
  pairNames options breakpoint format.
Proof.
  unfold pairImages, pairNames.
  destruct (skipped options format); [reflexivity|].
  destruct (ProcessingOptions.includeRetina options); cbn [map resized ProcessedImage.name].
  - reflexivity.
  - reflexivity.
Qed.

Lemma pairImages_length breakpoint format :
  List.length (pairImages toBlob img options breakpoint format) =
  List.length (pairTasks options breakpoint format).
Proof.
  unfold pairImages, pairTasks.
  destruct (skipped options format); [reflexivity|].
  destruct (ProcessingOptions.includeRetina options); reflexivity.
Qed.

Lemma formats_names breakpoint formats :
  map ProcessedImage.name (flat_map (pairImages toBlob img options breakpoint) formats) =
  flat_map (pairNames options breakpoint) formats.
Proof.
  induction formats as [|format fs IHf]; [reflexivity|].
  cbn [flat_map]. rewrite map_app, IHf, pairImages_names. reflexivity.
Qed.

Lemma allImages_names :
  map ProcessedImage.name (allImages toBlob img options) = allNames options.
Proof.
  unfold allImages, allNames.
  induction (ProcessingOptions.breakpoints options) as [|breakpoint bps IH];
    [reflexivity|].
  cbn [flat_map]. rewrite map_app, IH, formats_names. reflexivity.
Qed.

Lemma formats_length breakpoint formats :
  List.length (flat_map (pairImages toBlob img options breakpoint) formats) =
  List.length (flat_map (pairTasks options breakpoint) formats).
Proof.
  induction formats as [|format fs IHf]; [reflexivity|].
  cbn [flat_map]. rewrite !length_app, IHf, pairImages_length. reflexivity.
Qed.

Lemma allImages_length :
  List.length (allImages toBlob img options) = List.length (allTasks options).
Proof.
  unfold allImages, allTasks.
  induction (ProcessingOptions.breakpoints options) as [|breakpoint bps IH];
    [reflexivity|].
  cbn [flat_map]. rewrite !length_app, IH, formats_length. reflexivity.
Qed.

(** The derivatives of one breakpoint: every format that is not skipped
    gives one or two of them. *)
Lemma formats_count breakpoint formats :
  Z.of_nat (List.length (flat_map (pairTasks options breakpoint) formats)) =
  (Z.of_nat (List.length formats)
   - (if ProcessingOptions.lossless options
      then Z.of_nat (List.length (filter isJpeg formats)) else 0))
  * retinaFactor options.
Proof.
  induction formats as [|format formats IH].
  - cbn. destruct (ProcessingOptions.lossless options); reflexivity.
  - cbn [flat_map filter]. rewrite length_app, Nat2Z.inj_add, IH.
    unfold pairTasks, skipped, isJpeg, retinaFactor.
    destruct (ProcessingOptions.lossless options),
             (ImageFormat.extension format =? "jpg")%string,
             (ProcessingOptions.includeRetina options);
      cbn [andb List.length]; lia.
Qed.

Lemma allTasks_count :
  Z.of_nat (List.length (allTasks options)) = derivativeCount options.
Proof.
  unfold allTasks, derivativeCount.
  induction (ProcessingOptions.breakpoints options) as [|breakpoint bps IH].
  - cbn. destruct (ProcessingOptions.lossless options); reflexivity.
  - cbn [flat_map]. rewrite length_app, Nat2Z.inj_add, IH, formats_count.
    cbn [List.length]. destruct (ProcessingOptions.lossless options); lia.
Qed.

(** Where a derivative of the run comes from. *)
Lemma allImages_inv d :
  In d (allImages toBlob img options) ->
  exists breakpoint format,
    In breakpoint (ProcessingOptions.breakpoints options)
    /\ In format (ProcessingOptions.formats options)
    /\ skipped options format = false
    /\ (d = resized toBlob img (Breakpoint.width breakpoint) format options
              (toString (Breakpoint.width breakpoint))
        \/ (ProcessingOptions.includeRetina options = true
            /\ d = resized toBlob img (Breakpoint.width breakpoint * 2) format options
                     (toString (Breakpoint.width breakpoint) ++ "@2x"))).
Proof.
  unfold allImages. intros Hd.
  apply in_flat_map in Hd as [breakpoint [Hbp Hd]].
  apply in_flat_map in Hd as [format [Hf Hd]].
  exists breakpoint, format. repeat split; try assumption.
  - unfold pairImages in Hd. destruct (skipped options format); [destruct Hd|reflexivity].
  - unfold pairImages in Hd. destruct (skipped options format); [destruct Hd|].
    destruct Hd as [<-|Hd]; [now left|].
    destruct (ProcessingOptions.includeRetina options); [|destruct Hd].
    destruct Hd as [<-|[]]. right. split; reflexivity.
Qed.

End Plan.

Lemma sizesOk_inv img options breakpoint :
  sizesOk img options = true ->
  In breakpoint (ProcessingOptions.breakpoints options) ->
  hasPixels (resizedCanvas img (Breakpoint.width breakpoint)) = true
  /\ (ProcessingOptions.includeRetina options = true ->
      hasPixels (resizedCanvas img (Breakpoint.width breakpoint * 2)) = true).
Proof.
  unfold sizesOk. intros Hsz Hin.
  rewrite forallb_forall in Hsz. specialize (Hsz breakpoint Hin).
  apply andb_true_iff in Hsz as [H1 H2]. split; [exact H1|].
  intros Hr. rewrite Hr in H2. exact H2.
Qed.

Lemma htmlEncoder_encodesPixels : encodesPixels htmlEncoder.
Proof.
  intros c type q Hpx. unfold htmlEncoder. rewrite Hpx. eexists. reflexivity.
Qed.

Lemma htmlEncoder_rejectsEmpty : rejectsEmpty htmlEncoder.
Proof.
  intros c type q b Hpx. unfold htmlEncoder. rewrite Hpx. discriminate.
Qed.

(* ================================================================== *)
(** ** The derivative set *)

(** C2, as the program has it.  When the source decodes and every canvas of
    the run has pixels that the encoder accepts, [processImage] returns, and
    the number of derivatives is
    [breakpoints * formats * (includeRetina ? 2 : 1)] minus, under the
    lossless option, [breakpoints * (formats with extension jpg) *
    (includeRetina ? 2 : 1)]: a skipped format loses its retina variant
    too. *)
Theorem processImage_count toBlob file img options w :
  File.image file = Some img ->
  encodesPixels toBlob ->
  sizesOk img options = true ->
  exists results w',
    processImage toBlob file options w = (Return results, w')
    /\ Z.of_nat (List.length results) = derivativeCount options.
Proof.
  intros Himg Henc Hsz.
  destruct (processImage_ok toBlob file img options w Himg Henc Hsz) as [c Hrun].
  eexists _, _. split; [exact Hrun|].
  rewrite allImages_length. apply allTasks_count.
Qed.

Lemma processImage_count_witness :
  File.image source4K = Some (HTMLImageElement.mk 3840 2160)
  /\ encodesPixels htmlEncoder
  /\ sizesOk (HTMLImageElement.mk 3840 2160) (losslessOptions true) = true
  /\ exists results w',
       processImage htmlEncoder source4K (losslessOptions true) freshWorld
       = (Return results, w')
       /\ Z.of_nat (List.length results) = derivativeCount (losslessOptions true).
Proof.
  split; [reflexivity|].
  split; [exact htmlEncoder_encodesPixels|].
  split; [vm_compute; reflexivity|].
  apply (processImage_count htmlEncoder source4K (HTMLImageElement.mk 3840 2160)
           (losslessOptions true) freshWorld).
  - reflexivity.
  - exact htmlEncoder_encodesPixels.
  - vm_compute; reflexivity.
Defined.

(** C2 as stated fails: lossless, formats JPEG and PNG, one breakpoint, with
    retina.  The source is 3840 by 2160, formats and breakpoints are not
    empty; two derivatives come out where the stated count is three. *)
Lemma statedCount_overcounts_retina :
  let options := losslessOptions true in
  ProcessingOptions.formats options <> []
  /\ ProcessingOptions.breakpoints options <> []
  /\ exists results w',
       processImage htmlEncoder source4K options freshWorld = (Return results, w')
       /\ Z.of_nat (List.length results) = 2
       /\ statedCount options = 3.
Proof.
  cbv zeta. split; [discriminate|]. split; [discriminate|].
  eexists _, _. split; [vm_compute; reflexivity|]. split; reflexivity.
Qed.

(** C5, as the program has it.  The names come in the nested order
    breakpoints, then formats, then standard before retina, so the two
    variants of a format are adjacent; on the scenario of the
    specification the eight names are 1920.webp, 1920@2x.webp, 1920.jpg,
    1920@2x.jpg, 768.webp, 768@2x.webp, 768.jpg, 768@2x.jpg. *)
Theorem processImage_order :
  (forall toBlob file img options w,
      File.image file = Some img ->
      encodesPixels toBlob ->
      sizesOk img options = true ->
      exists results w',
        processImage toBlob file options w = (Return results, w')
        /\ map ProcessedImage.name results = allNames options)
  /\ exists results w',
       processImage htmlEncoder source4K scenarioOptions freshWorld = (Return results, w')
       /\ map ProcessedImage.name results =
          [ "image-1920.webp"; "image-1920@2x.webp"; "image-1920.jpg"; "image-1920@2x.jpg";
            "image-768.webp"; "image-768@2x.webp"; "image-768.jpg"; "image-768@2x.jpg" ].
Proof.
  split.
  - intros toBlob file img options w Himg Henc Hsz.
    destruct (processImage_ok toBlob file img options w Himg Henc Hsz) as [c Hrun].
    eexists _, _. split; [exact Hrun|]. apply allImages_names.
  - eexists _, _. split; vm_compute; reflexivity.
Qed.

Lemma processImage_order_witness :
  exists results w',
    processImage htmlEncoder source4K (losslessOptions false) freshWorld
    = (Return results, w')
    /\ map ProcessedImage.name results = allNames (losslessOptions false).
Proof.
  apply (proj1 processImage_order htmlEncoder source4K (HTMLImageElement.mk 3840 2160)
           (losslessOptions false) freshWorld).
  - reflexivity.
  - exact htmlEncoder_encodesPixels.
  - vm_compute; reflexivity.
Defined.

(** C5 as stated fails on its own scenario: the program does not emit the
    two standard names of a breakpoint before its two retina names. *)
Lemma scenario_order_differs :
  exists results w',
    processImage htmlEncoder source4K scenarioOptions freshWorld = (Return results, w')
    /\ map ProcessedImage.name results <>
       [ "image-1920.webp"; "image-1920.jpg"; "image-1920@2x.webp"; "image-1920@2x.jpg";
         "image-768.webp"; "image-768.jpg"; "image-768@2x.webp"; "image-768@2x.jpg" ].
Proof.
  eexists _, _. split; [vm_compute; reflexivity|]. vm_compute. discriminate.
Qed.

(** C1 fails on the program.  Under the lossless option with a JPEG format
    selected, every progress record of a successful run carries the total
    computed before the skip, [totalSteps], while the records are numbered
    from 1 to the number of derivatives, which is smaller: no record, the
    last one included, has [current = total]. *)
Theorem lossless_jpeg_progress_stops_short toBlob file img options w :
  File.image file = Some img ->
  encodesPixels toBlob ->
  sizesOk img options = true ->
  ProcessingOptions.lossless options = true ->
  existsb isJpeg (ProcessingOptions.formats options) = true ->
  ProcessingOptions.breakpoints options <> [] ->
  exists results c events,
    processImage toBlob file options w = (Return results, mkWorld c (emitted w ++ events)%list)
    /\ List.length events = List.length results
    /\ Forall (fun p =>
                 ProcessingProgress.total p = totalSteps options
                 /\ ProcessingProgress.current p <= Z.of_nat (List.length results)
                 /\ Z.of_nat (List.length results) < ProcessingProgress.total p)
              events.
Proof.
  intros Himg Henc Hsz Hl Hj Hb.
  destruct (processImage_ok toBlob file img options w Himg Henc Hsz) as [c Hrun].
  assert (Hlt : Z.of_nat (List.length (allTasks options)) < totalSteps options).
  { rewrite allTasks_count.
    unfold derivativeCount, totalSteps, retinaFactor. rewrite Hl.
    assert (Hj' : 0 < Z.of_nat (List.length
                                  (filter isJpeg (ProcessingOptions.formats options)))).
    { apply existsb_exists in Hj as [f [Hin Hf]].
      assert (In f (filter isJpeg (ProcessingOptions.formats options)))
        by (apply filter_In; auto).
      destruct (filter isJpeg (ProcessingOptions.formats options)); [contradiction|].
      cbn [List.length]. lia. }
    assert (Hb' : 0 < Z.of_nat (List.length (ProcessingOptions.breakpoints options))).
    { destruct (ProcessingOptions.breakpoints options); [congruence|].
      cbn [List.length]. lia. }
    destruct (ProcessingOptions.includeRetina options); nia. }
  eexists _, _, _. split; [exact Hrun|].
  rewrite progressFrom_length, allImages_length. split; [reflexivity|].
  apply Forall_forall. intros p Hin.
  destruct (progressFrom_bounds _ _ _ _ Hin) as [Ht Hc]. rewrite Ht. lia.
Qed.

Lemma lossless_jpeg_progress_stops_short_witness :
  exists results c events,
    processImage htmlEncoder source4K (losslessOptions false) freshWorld
    = (Return results, mkWorld c (emitted freshWorld ++ events)%list)
    /\ List.length events = List.length results
    /\ Forall (fun p =>
                 ProcessingProgress.total p = totalSteps (losslessOptions false)
                 /\ ProcessingProgress.current p <= Z.of_nat (List.length results)
                 /\ Z.of_nat (List.length results) < ProcessingProgress.total p)
              events.
Proof.
  apply (lossless_jpeg_progress_stops_short htmlEncoder source4K
           (HTMLImageElement.mk 3840 2160) (losslessOptions false) freshWorld).
  - reflexivity.
  - exact htmlEncoder_encodesPixels.
  - vm_compute; reflexivity.
  - reflexivity.
  - reflexivity.
  - discriminate.
Defined.

(** The run of the last scenario of the specification: one PNG derivative,
    and a single progress record that says 1 of 2. *)
Example lossless_jpeg_png_run :
  exists results c,
    processImage htmlEncoder source4K (losslessOptions false) freshWorld =
    (Return results, mkWorld c [ProcessingProgress.mk 1 2 "Processing Mobile PNG"])
    /\ map ProcessedImage.name results = ["image-768.png"].
Proof.
  eexists _, _. split; vm_compute; reflexivity.
Qed.

(* ================================================================== *)
(** ** Names and encoding paths *)

Lemma length_append s t :
  String.length (s ++ t) = (String.length s + String.length t)%nat.
Proof. induction s as [|c s IH]; cbn; [reflexivity|now rewrite IH]. Qed.

Lemma substring_append_skip s t k n :
  substring (String.length s + k) n (s ++ t) = substring k n t.
Proof. induction s as [|c s IH]; cbn; [reflexivity|exact IH]. Qed.

(** A suffix no longer than [t] is looked for in [t] alone. *)
Lemma endsWith_append suffix s t :
  (String.length suffix <= String.length t)%nat ->
  endsWith suffix (s ++ t) = endsWith suffix t.
Proof.
  intros Hle. unfold endsWith. rewrite length_append.
  replace (String.length s + String.length t - String.length suffix)%nat
    with (String.length s + (String.length t - String.length suffix))%nat by lia.
  rewrite substring_append_skip.
  destruct (Nat.leb_spec (String.length suffix) (String.length t)); [|lia].
  destruct (Nat.leb_spec (String.length suffix) (String.length s + String.length t));
    [reflexivity|lia].
Qed.

Lemma name_not_jpg sizeSuffix format :
  In format IMAGE_FORMATS ->
  isJpeg format = false ->
  endsWith "jpg" ("image-" ++ sizeSuffix ++ "." ++ ImageFormat.extension format) = false.
Proof.
  intros Hin Hj.
  assert (Hlen : (String.length "jpg"
                  <= String.length ("." ++ ImageFormat.extension format))%nat).
  { destruct Hin as [<-|[<-|[<-|[<-|[]]]]]; cbn; lia. }
  rewrite endsWith_append.
  2:{ rewrite length_append. lia. }
  rewrite endsWith_append by exact Hlen.
  destruct Hin as [<-|[<-|[<-|[<-|[]]]]]; try reflexivity. discriminate Hj.
Qed.

(** On the slider's range the quotient already lies in [0.1, 1]. *)
Lemma quality_within_bounds q :
  10 <= q <= 100 ->
  clamp (lit 1 10) (of_Z 1) (div (of_Z q) (of_Z 100)) = div (of_Z q) (of_Z 100).
Proof.
  intros Hq.
  assert (Hin : In q (range 10 101)).
  { unfold range. apply in_map_iff. exists (Z.to_nat (q - 10)). split; [lia|].
    apply in_seq. lia. }
  vm_compute in Hin.
  repeat (destruct Hin as [<-|Hin]; [vm_compute; reflexivity|]).
  destruct Hin.
Qed.

Lemma quality_in_range q :
  10 <= q <= 100 ->
  leb (lit 1 10) (div (of_Z q) (of_Z 100)) = true
  /\ leb (div (of_Z q) (of_Z 100)) (of_Z 1) = true.
Proof.
  intros Hq.
  assert (Hin : In q (range 10 101)).
  { unfold range. apply in_map_iff. exists (Z.to_nat (q - 10)). split; [lia|].
    apply in_seq. lia. }
  vm_compute in Hin.
  repeat (destruct Hin as [<-|Hin]; [split; vm_compute; reflexivity|]).
  destruct Hin.
Qed.

(** The request [canvasToBlob] makes of the encoder, and what it settles
    with. *)
Lemma canvasToBlob_lossless toBlob format options w :
  ProcessingOptions.lossless options = true \/ ImageFormat.extension format = "png" ->
  canvasToBlob toBlob format options w = settleBlob (toBlob (canvas w) "image/png" None) w.
Proof.
  intros Hpath. unfold canvasToBlob, settleBlob, requestBlob.
  destruct Hpath as [-> | ->]; [rewrite orb_true_r|]; reflexivity.
Qed.

Lemma canvasToBlob_lossy toBlob format options w :
  ProcessingOptions.lossless options = false ->
  ImageFormat.extension format <> "png" ->
  canvasToBlob toBlob format options w =
  settleBlob (toBlob (canvas w) (ImageFormat.mimeType format)
                (Some (div (of_Z (ProcessingOptions.quality options)) (of_Z 100)))) w.
Proof.
  intros Hl Hpng. unfold canvasToBlob, settleBlob, requestBlob.
  rewrite Hl, orb_false_r.
  destruct (String.eqb_spec (ImageFormat.extension format) "png"); [contradiction|].
  reflexivity.
Qed.

(** C4, as the program has it.  Under the lossless option a run names no
    derivative with the JPEG extension and obtains every blob from a PNG
    request that carries no quality argument; [canvasToBlob] asks for
    [image/png] without a quality whenever the option is set or the format
    is PNG, and otherwise asks for the format's own media type at
    [quality / 100], passed as it is.  On the range 10..100 of the quality
    option that quotient lies in [0.1, 1.0], so that clamping it changes
    nothing. *)
Theorem encoding_paths :
  (forall toBlob file img options w,
      File.image file = Some img ->
      encodesPixels toBlob ->
      sizesOk img options = true ->
      incl (ProcessingOptions.formats options) IMAGE_FORMATS ->
      ProcessingOptions.lossless options = true ->
      exists results w',
        processImage toBlob file options w = (Return results, w')
        /\ Forall (fun d =>
                     endsWith "jpg" (ProcessedImage.name d) = false
                     /\ exists c, toBlob c "image/png" None = Encoded (ProcessedImage.blob d))
                  results)
  /\ (forall toBlob format options w,
         ProcessingOptions.lossless options = true
         \/ ImageFormat.extension format = "png" ->
         canvasToBlob toBlob format options w =
         settleBlob (toBlob (canvas w) "image/png" None) w)
  /\ (forall toBlob format options w,
         ProcessingOptions.lossless options = false ->
         ImageFormat.extension format <> "png" ->
         canvasToBlob toBlob format options w =
         settleBlob (toBlob (canvas w) (ImageFormat.mimeType format)
                       (Some (div (of_Z (ProcessingOptions.quality options)) (of_Z 100))))
                    w)
  /\ (forall q,
         10 <= q <= 100 ->
         leb (lit 1 10) (div (of_Z q) (of_Z 100)) = true
         /\ leb (div (of_Z q) (of_Z 100)) (of_Z 1) = true
         /\ clamp (lit 1 10) (of_Z 1) (div (of_Z q) (of_Z 100)) = div (of_Z q) (of_Z 100)).
Proof.
  split; [|split; [|split]].
  - intros toBlob file img options w Himg Henc Hsz Hincl Hl.
    destruct (processImage_ok toBlob file img options w Himg Henc Hsz) as [c Hrun].
    eexists _, _. split; [exact Hrun|].
    apply Forall_forall. intros d Hd.
    apply allImages_inv in Hd as (breakpoint & format & Hbp & Hf & Hskip & Hd).
    destruct (sizesOk_inv img options breakpoint Hsz Hbp) as [Hpx1 Hpx2].
    assert (Hj : isJpeg format = false).
    { unfold skipped in Hskip. rewrite Hl in Hskip. exact Hskip. }
    assert (Hreq : forall cv, requestBlob toBlob format options cv
                              = toBlob cv "image/png" None).
    { intros cv. unfold requestBlob. rewrite Hl, orb_true_r. reflexivity. }
    destruct Hd as [->|[Hr ->]]; cbn [resized ProcessedImage.name ProcessedImage.blob].
    + split; [apply name_not_jpg; auto|].
      exists (resizedCanvas img (Breakpoint.width breakpoint)). rewrite Hreq.
      destruct (Henc (resizedCanvas img (Breakpoint.width breakpoint)) "image/png" None Hpx1)
        as [b ->].
      reflexivity.
    + split; [apply name_not_jpg; auto|].
      exists (resizedCanvas img (Breakpoint.width breakpoint * 2)). rewrite Hreq.
      destruct (Henc (resizedCanvas img (Breakpoint.width breakpoint * 2)) "image/png" None
                  (Hpx2 Hr)) as [b ->].
      reflexivity.
  - intros toBlob format options w. apply canvasToBlob_lossless.
  - intros toBlob format options w. apply canvasToBlob_lossy.
  - intros q Hq. destruct (quality_in_range q Hq) as [Hlo Hhi].
    split; [exact Hlo|]. split; [exact Hhi|]. apply quality_within_bounds. exact Hq.
Qed.

Lemma encoding_paths_witness :
  (exists results w',
      processImage htmlEncoder source4K (losslessOptions true) freshWorld
      = (Return results, w')
      /\ Forall (fun d =>
                   endsWith "jpg" (ProcessedImage.name d) = false
                   /\ exists c, htmlEncoder c "image/png" None
                                = Encoded (ProcessedImage.blob d))
                results)
  /\ canvasToBlob htmlEncoder WebP (losslessOptions true) freshWorld =
     settleBlob (htmlEncoder (canvas freshWorld) "image/png" None) freshWorld
  /\ canvasToBlob htmlEncoder WebP scenarioOptions freshWorld =
     settleBlob (htmlEncoder (canvas freshWorld) "image/webp"
                   (Some (div (of_Z 85) (of_Z 100)))) freshWorld
  /\ (leb (lit 1 10) (div (of_Z 85) (of_Z 100)) = true
      /\ leb (div (of_Z 85) (of_Z 100)) (of_Z 1) = true
      /\ clamp (lit 1 10) (of_Z 1) (div (of_Z 85) (of_Z 100)) = div (of_Z 85) (of_Z 100)).
Proof.
  split; [|split; [|split]].
  - apply (proj1 encoding_paths htmlEncoder source4K (HTMLImageElement.mk 3840 2160)
             (losslessOptions true) freshWorld).
    + reflexivity.
    + exact htmlEncoder_encodesPixels.
    + vm_compute; reflexivity.
    + intros f [<-|[<-|[]]]; cbn; auto.
    + reflexivity.
  - apply (proj1 (proj2 encoding_paths) htmlEncoder WebP (losslessOptions true) freshWorld).
    left; reflexivity.
  - apply (proj1 (proj2 (proj2 encoding_paths)) htmlEncoder WebP scenarioOptions freshWorld).
    + reflexivity.
    + discriminate.
  - apply (proj2 (proj2 (proj2 encoding_paths)) 85). lia.
Defined.

(** C4 as stated fails outside that range: the program has no clamp.  At
    quality 5, WebP is requested at 0.05, which is below 0.1; an encoder
    that tells the two values apart answers [canvasToBlob] differently from
    a request at the clamped value 0.1. *)
Lemma quality_below_range_not_clamped :
  let options := ProcessingOptions.mk false 5 [WebP] [bpMobile] false in
  (forall toBlob w,
      canvasToBlob toBlob WebP options w
      = settleBlob (toBlob (canvas w) "image/webp" (Some (lit 5 100))) w)
  /\ ltb (lit 5 100) (lit 1 10) = true
  /\ clamp (lit 1 10) (of_Z 1) (lit 5 100) = lit 1 10
  /\ (exists toBlob,
         canvasToBlob toBlob WebP options freshWorld
         <> settleBlob (toBlob (canvas freshWorld) "image/webp"
                          (Some (clamp (lit 1 10) (of_Z 1)
                                   (div (of_Z (ProcessingOptions.quality options))
                                        (of_Z 100)))))
                       freshWorld).
Proof.
  cbv zeta. split; [|split; [|split]].
  - intros toBlob w. reflexivity.
  - vm_compute. reflexivity.
  - vm_compute. reflexivity.
  - exists (fun _ type quality =>
              match quality with
              | Some q => if ltb q (lit 1 10) then NullBlob else Encoded (Blob.mk type 0)
              | None => NullBlob
              end).
    vm_compute. discriminate.
Qed.

(** C10.  Under the lossless option the derivative of AVIF or WebP holds the
    blob the encoder returned for an [image/png] request, under a name that
    ends in the format's own extension, whose media type is not PNG. *)
Theorem lossless_blob_is_png toBlob img targetWidth format options sizeSuffix w b :
  ProcessingOptions.lossless options = true ->
  In format [AVIF; WebP] ->
  toBlob (resizedCanvas img targetWidth) "image/png" None = Encoded b ->
  exists d w',
    createResizedImage toBlob img targetWidth format options sizeSuffix w = (Return d, w')
    /\ ProcessedImage.blob d = b
    /\ ProcessedImage.name d = "image-" ++ sizeSuffix ++ "." ++ ImageFormat.extension format
    /\ endsWith ("." ++ ImageFormat.extension format) (ProcessedImage.name d) = true
    /\ ImageFormat.extension format <> "png"
    /\ ImageFormat.mimeType format <> "image/png".
Proof.
  intros Hl Hin Hb.
  rewrite createResizedImage_eq. cbv zeta.
  assert (Hreq : requestBlob toBlob format options (resizedCanvas img targetWidth)
                 = Encoded b).
  { unfold requestBlob. rewrite Hl, orb_true_r. exact Hb. }
  rewrite Hreq. eexists _, _. split; [reflexivity|].
  cbn [resized ProcessedImage.blob ProcessedImage.name]. rewrite Hreq.
  split; [reflexivity|]. split; [reflexivity|].
  split.
  - replace ("image-" ++ sizeSuffix ++ "." ++ ImageFormat.extension format)
      with (("image-" ++ sizeSuffix) ++ "." ++ ImageFormat.extension format).
    2:{ cbn. reflexivity. }
    rewrite endsWith_append by lia.
    destruct Hin as [<-|[<-|[]]]; reflexivity.
  - destruct Hin as [<-|[<-|[]]]; split; discriminate.
Qed.

Lemma lossless_blob_is_png_witness :
  exists d w',
    createResizedImage htmlEncoder (HTMLImageElement.mk 3840 2160) 768 WebP
      (losslessOptions false) "768" freshWorld = (Return d, w')
    /\ ProcessedImage.blob d = Blob.mk "image/png" (768 * 432)
    /\ ProcessedImage.name d = "image-" ++ "768" ++ "." ++ ImageFormat.extension WebP
    /\ endsWith ("." ++ ImageFormat.extension WebP) (ProcessedImage.name d) = true
    /\ ImageFormat.extension WebP <> "png"
    /\ ImageFormat.mimeType WebP <> "image/png".
Proof.
  apply (lossless_blob_is_png htmlEncoder (HTMLImageElement.mk 3840 2160) 768 WebP
           (losslessOptions false) "768" freshWorld (Blob.mk "image/png" (768 * 432))).
  - reflexivity.
  - right; left; reflexivity.
  - vm_compute; reflexivity.
Defined.

(* ================================================================== *)
(** ** Sources with a zero dimension, empty option lists *)

(** With a zero width the aspect ratio is infinite or NaN, with a zero
    height it is zero or NaN; the rounded product is then NaN, infinite or
    zero, and the canvas height it is converted to is 0. *)
Lemma zero_source_canvas_height img targetWidth :
  HTMLImageElement.width img = 0 \/ HTMLImageElement.height img = 0 ->
  ulong_of_number (finalHeight img targetWidth) = 0.
Proof.
  unfold finalHeight, aspectRatio. destruct img as [w0 h0].
  cbn [HTMLImageElement.width HTMLImageElement.height].
  generalize (finalWidth (HTMLImageElement.mk w0 h0) targetWidth). intros fw.
  intros [-> | ->]; change (of_Z 0) with (S754_zero false); unfold div, mul.
  - destruct (of_Z h0) as [s|s| |s m e], (of_Z fw) as [s'|s'| |s' m' e']; reflexivity.
  - destruct (of_Z w0) as [s|s| |s m e], (of_Z fw) as [s'|s'| |s' m' e']; reflexivity.
Qed.

Lemma zero_source_no_pixels img targetWidth :
  HTMLImageElement.width img = 0 \/ HTMLImageElement.height img = 0 ->
  hasPixels (resizedCanvas img targetWidth) = false.
Proof.
  intros Hz. unfold hasPixels, resizedCanvas. cbn [canvas_width canvas_height].
  rewrite (zero_source_canvas_height _ _ Hz). apply andb_false_r.
Qed.

(** C7.  When the source has width 0 or height 0 and the encoder gives no
    blob for a canvas without pixels, [createResizedImage] rejects: it
    returns no derivative. *)
Theorem zero_dimension_source_rejected
    toBlob img targetWidth format options sizeSuffix w :
  rejectsEmpty toBlob ->
  HTMLImageElement.width img = 0 \/ HTMLImageElement.height img = 0 ->
  exists cause w',
    createResizedImage toBlob img targetWidth format options sizeSuffix w =
    (Throw ("Failed to create " ++ sizeSuffix ++ " image: " ++ cause), w').
Proof.
  intros Hrej Hz. rewrite createResizedImage_eq. cbv zeta.
  pose proof (zero_source_no_pixels img targetWidth Hz) as Hpx.
  destruct (requestBlob toBlob format options (resizedCanvas img targetWidth))
    as [b| |message] eqn:Hreq.
  - exfalso. unfold requestBlob in Hreq.
    destruct ((ImageFormat.extension format =? "png")%string
              || ProcessingOptions.lossless options);
      exact (Hrej _ _ _ b Hpx Hreq).
  - eexists _, _. reflexivity.
  - eexists _, _. reflexivity.
Qed.

Lemma zero_dimension_source_rejected_witness :
  exists cause w',
    createResizedImage htmlEncoder (HTMLImageElement.mk 0 2160) 768 WebP
      scenarioOptions "768" freshWorld =
    (Throw ("Failed to create " ++ "768" ++ " image: " ++ cause), w').
Proof.
  apply (zero_dimension_source_rejected htmlEncoder (HTMLImageElement.mk 0 2160) 768 WebP
           scenarioOptions "768" freshWorld).
  - exact htmlEncoder_rejectsEmpty.
  - left; reflexivity.
Defined.

Example zero_height_source_run :
  fst (processImage htmlEncoder (File.mk "flat.png" (Some (HTMLImageElement.mk 3840 0)))
         scenarioOptions freshWorld)
  = Throw "Failed to process image: Failed to create 1920 image: Failed to create blob".
Proof. vm_compute. reflexivity. Qed.

(** C6, as the program has it.  The check for empty lists is in the caller
    of the processor: with no format or no breakpoint selected,
    [handleProcess] sets the error message and does nothing else.  The
    processor is not called, no progress record is handed out, and the
    progress and the derivatives of the state are left as they were. *)
Theorem handleProcess_rejects_empty_options toBlob st :
  ProcessingOptions.formats (options st) = []
  \/ ProcessingOptions.breakpoints (options st) = [] ->
  handleProcess toBlob st =
  (mkApp (selectedFile st) (options st) "Please select formats and breakpoints"
     (isProcessing st) (progress st) (processedImages st) (isComplete st), []).
Proof.
  intros Hempty. unfold handleProcess.
  destruct (selectedFile st) as [file|]; [|reflexivity].
  destruct Hempty as [-> | ->]; cbn [List.length Nat.eqb orb]; [reflexivity|].
  rewrite orb_true_r. reflexivity.
Qed.

Lemma handleProcess_rejects_empty_options_witness :
  handleProcess htmlEncoder
    (mkApp (Some source4K) (ProcessingOptions.mk false 85 [] [bpMobile] true)
       EmptyString false None [] false) =
  (mkApp (Some source4K) (ProcessingOptions.mk false 85 [] [bpMobile] true)
     "Please select formats and breakpoints" false None [] false, []).
Proof.
  apply (handleProcess_rejects_empty_options htmlEncoder
           (mkApp (Some source4K) (ProcessingOptions.mk false 85 [] [bpMobile] true)
              EmptyString false None [] false)).
  left; reflexivity.
Defined.

(** C6 as stated fails on the processor itself.  [processImage] has no
    check of its own: on an empty list of formats, or of breakpoints, it
    raises no error: it resolves to the empty list and hands out no
    progress record. *)
Lemma processImage_raises_no_config_error :
  processImage htmlEncoder source4K
    (ProcessingOptions.mk false 85 [] [bp1080p; bpMobile] true) freshWorld
  = (Return [], freshWorld)
  /\ processImage htmlEncoder source4K
       (ProcessingOptions.mk false 85 [WebP; JPEG] [] true) freshWorld
     = (Return [], freshWorld)
  /\ emitted freshWorld = [].
Proof. repeat split; vm_compute; reflexivity. Qed.

(** X7.  Called directly on empty lists, [processImage] does not reject: it
    resolves to the empty list and reports no progress. *)
Lemma processImage_empty_options toBlob file img options w :
  File.image file = Some img ->
  ProcessingOptions.formats options = []
  \/ ProcessingOptions.breakpoints options = [] ->
  processImage toBlob file options w = (Return [], w).
Proof.
  intros Himg Hempty.
  unfold processImage, tryCatch, bind at 1, loadImage. rewrite Himg. unfold ret at 1.
  unfold bind.
  assert (Hloop : forall bps l w0,
             forOf bps (fun breakpoint =>
                          forOf [] (processPair toBlob img options (totalSteps options)
                                      breakpoint)) l w0 = (Return l, w0)).
  { induction bps as [|bp bps IH]; intros l w0; [reflexivity|].
    cbn [forOf]. unfold bind, ret at 1. apply IH. }
  destruct Hempty as [-> | ->].
  - rewrite Hloop. reflexivity.
  - reflexivity.
Qed.

(* ================================================================== *)
(** ** Binary64 facts used by the resize arithmetic *)

Section Binary64.

Lemma shr_1_nonneg mrs : 0 <= shr_m mrs -> 0 <= shr_m (shr_1 mrs).
Proof.
  destruct mrs as [m r s]. cbn [shr_m]. intros Hm.
  destruct m as [|p|p]; [cbn; lia| |lia].
  destruct p; cbn; lia.
Qed.

Lemma iter_pos_invariant {A} (P : A -> Prop) (f : A -> A) :
  (forall x, P x -> P (f x)) -> forall n x, P x -> P (iter_pos f n x).
Proof.
  intros Hf. induction n as [n IH|n IH|]; intros x Hx; cbn [iter_pos]; auto.
Qed.

Lemma shr_fexp_nonneg m e l :
  0 <= m -> 0 <= shr_m (fst (shr_fexp prec emax m e l)).
Proof.
  intros Hm. unfold shr_fexp, shr.
  assert (H0 : 0 <= shr_m (shr_record_of_loc m l)).
  { destruct l as [|[]]; cbn; exact Hm. }
  destruct (fexp prec emax (Zdigits2 m + e) - e) as [|n|n]; cbn [fst]; try exact H0.
  apply iter_pos_invariant; [exact shr_1_nonneg | exact H0].
Qed.

Lemma round_nearest_even_nonneg m l : 0 <= m -> 0 <= round_nearest_even m l.
Proof.
  intros Hm. destruct l as [|[]]; cbn [round_nearest_even]; try lia.
  destruct (Z.even m); lia.
Qed.

(** Rounding a non-negative mantissa gives a zero, a finite number or an
    infinity of the requested sign, never NaN. *)
Lemma binary_round_aux_sign s m e l :
  0 <= m -> hasSign s (binary_round_aux prec emax s m e l).
Proof.
  intros Hm. unfold binary_round_aux.
  pose proof (shr_fexp_nonneg m e l Hm) as H1.
  destruct (shr_fexp prec emax m e l) as [mrs' e']. cbn [fst] in H1.
  pose proof (shr_fexp_nonneg
                (round_nearest_even (shr_m mrs') (loc_of_shr_record mrs')) e' loc_Exact
                (round_nearest_even_nonneg _ _ H1)) as H2.
  destruct (shr_fexp prec emax
              (round_nearest_even (shr_m mrs') (loc_of_shr_record mrs')) e' loc_Exact)
    as [mrs'' e'']. cbn [fst] in H2.
  destruct (shr_m mrs'') as [|p|p]; [reflexivity| |lia].
  destruct (e'' <=? emax - prec); reflexivity.
Qed.

Lemma of_Z_nonneg z : 0 <= z -> hasSign false (of_Z z).
Proof.
  intros Hz. unfold of_Z, binary_normalize.
  destruct z as [|p|p]; [reflexivity| |lia].
  unfold binary_round.
  destruct (shl_align p 0 (fexp prec emax (Z.pos (digits2_pos p) + 0))) as [mz ez].
  apply binary_round_aux_sign. lia.
Qed.

Lemma mul_sign sx sy x y :
  hasSign sx x -> hasSign sy y -> isFinite x ->
  hasSign (xorb sx sy) (mul x y).
Proof.
  destruct x as [s|s| |s m e]; cbn [isFinite]; try contradiction.
  intros Hx Hy _. cbn [hasSign] in Hx. subst s.
  destruct y as [s'|s'| |s' m' e']; cbn [hasSign] in Hy; try contradiction; subst s'.
  - reflexivity.
  - reflexivity.
  - unfold mul, SFmul. apply binary_round_aux_sign. lia.
Qed.

Lemma div_sign sx sy x y :
  hasSign sx x -> hasSign sy y -> isFinite x -> isFinite y ->
  hasSign (xorb sx sy) (div x y).
Proof.
  destruct x as [s|s| |s m e]; cbn [isFinite]; try contradiction.
  destruct y as [s'|s'| |s' m' e']; cbn [isFinite]; try contradiction.
  cbn [hasSign]. intros -> -> _ _.
  unfold div, SFdiv.
  destruct (SFdiv_core_binary prec emax (Z.pos m) e (Z.pos m') e') as [[mz ez] lz] eqn:Hcore.
  apply binary_round_aux_sign.
  unfold SFdiv_core_binary in Hcore.
  set (sh := e - e' - Z.min (fexp prec emax (Zdigits2 (Z.pos m) + e
                                             - (Zdigits2 (Z.pos m') + e'))) (e - e'))
    in Hcore.
  set (m1 := match sh with
             | 0 => Z.pos m
             | Z.pos _ => Z.shiftl (Z.pos m) sh
             | Z.neg _ => 0
             end) in Hcore.
  assert (Hm1 : 0 <= m1).
  { unfold m1. destruct sh; [lia| |lia]. apply Z.shiftl_nonneg. lia. }
  pose proof (Z.div_pos m1 (Z.pos m') Hm1 ltac:(lia)) as Hq.
  unfold Z.div in Hq.
  destruct (Z.div_eucl m1 (Z.pos m')) as [q r]. inversion Hcore; subst. exact Hq.
Qed.

Lemma round_half_up_Z_nonneg m e : 0 <= round_half_up_Z false m e.
Proof.
  unfold round_half_up_Z. destruct e as [|p|p].
  - cbn. lia.
  - apply Z.mul_nonneg_nonneg; [lia|]. apply Z.pow_nonneg. lia.
  - apply Z.div_pos.
    + pose proof (Z.pow_nonneg 2 (Z.pos p)). lia.
    + pose proof (Z.pow_pos_nonneg 2 (Z.pos p)). lia.
Qed.

Lemma Math_round_sign x : hasSign false x -> hasSign false (Math_round x).
Proof.
  destruct x as [s|s| |s m e]; cbn [hasSign Math_round]; try tauto.
  intros ->. pose proof (round_half_up_Z_nonneg m e) as Hk.
  destruct (Z.eqb_spec (round_half_up_Z false m e) 0); [reflexivity|].
  apply of_Z_nonneg. exact Hk.
Qed.

Lemma hasSign_nonneg x : hasSign false x -> leb (of_Z 0) x = true.
Proof.
  destruct x as [s|s| |s m e]; cbn [hasSign]; try contradiction; intros ->; reflexivity.
Qed.

(** The number of binary digits of a positive integer. *)
Lemma digits2_pos_lower p : 2 ^ (Z.pos (digits2_pos p) - 1) <= Z.pos p.
Proof.
  induction p as [p IH|p IH|]; cbn [digits2_pos]; [| |cbn; lia].
  all: rewrite Pos2Z.inj_succ.
  all: replace (Z.succ (Z.pos (digits2_pos p)) - 1)
         with (Z.succ (Z.pos (digits2_pos p) - 1)) by lia.
  all: rewrite Z.pow_succ_r by lia.
  all: lia.
Qed.

Lemma digits2_pos_bound p n :
  0 <= n -> Z.pos p < 2 ^ n -> Z.pos (digits2_pos p) <= n.
Proof.
  intros Hn Hp. pose proof (digits2_pos_lower p) as Hlow.
  destruct (Z_le_gt_dec (Z.pos (digits2_pos p)) n) as [|Hgt]; [assumption|exfalso].
  assert (2 ^ n <= 2 ^ (Z.pos (digits2_pos p) - 1)) by (apply Z.pow_le_mono_r; lia).
  lia.
Qed.

Lemma digits2_pos_iter_xO p k :
  digits2_pos (Pos.iter xO p k) = (digits2_pos p + k)%positive.
Proof.
  induction k as [|k IH] using Pos.peano_ind.
  - cbn. lia.
  - rewrite Pos.iter_succ. cbn [digits2_pos]. rewrite IH. lia.
Qed.

(** A mantissa of 53 digits with a small exponent is left as it is. *)
Lemma binary_round_aux_canonical s m e :
  Z.pos (digits2_pos m) = prec -> -1074 <= e <= 971 ->
  binary_round_aux prec emax s (Z.pos m) e loc_Exact = S754_finite s m e.
Proof.
  intros Hd He. unfold binary_round_aux.
  assert (Hshr : shr_fexp prec emax (Z.pos m) e loc_Exact
                 = (Build_shr_record (Z.pos m) false false, e)).
  { unfold shr_fexp, shr, fexp, emin. cbn [Zdigits2 shr_record_of_loc].
    rewrite Hd. unfold prec, emax in *.
    replace (Z.max (53 + e - 53) (3 - 1024 - 53) - e) with 0 by lia.
    reflexivity. }
  rewrite Hshr. cbn [shr_m loc_of_shr_record round_nearest_even].
  rewrite Hshr. cbn [shr_m].
  destruct (Z.leb_spec e (emax - prec)); [reflexivity|unfold emax, prec in *; lia].
Qed.

(** Integers below 2^53 are finite numbers. *)
Lemma of_Z_finite z : 0 < z < 2 ^ 53 -> isFinite (of_Z z).
Proof.
  intros [Hpos Hlt]. destruct z as [|p|p]; try lia.
  unfold of_Z, binary_normalize, binary_round, shl_align.
  pose proof (digits2_pos_bound p 53 ltac:(lia) Hlt) as Hd.
  assert (Hfexp : fexp prec emax (Z.pos (digits2_pos p) + 0)
                  = Z.pos (digits2_pos p) - 53).
  { unfold fexp, emin, prec, emax. lia. }
  rewrite Hfexp.
  destruct (Z.pos (digits2_pos p) - 53 - 0) as [|k|k] eqn:Hk; try lia.
  - rewrite binary_round_aux_canonical; [exact I| unfold prec; lia | lia].
  - rewrite binary_round_aux_canonical; [exact I| | lia].
    rewrite digits2_pos_iter_xO. unfold prec. lia.
Qed.

(** Numbers that are NaN or not below zero. *)
Lemma nanOrNonneg_of_sign x : hasSign false x -> nanOrNonneg x.
Proof. destruct x; cbn; auto. Qed.

Lemma div_nonneg x y : nanOrNonneg x -> hasSign false y -> nanOrNonneg (div x y).
Proof.
  destruct x as [s|s| |s m e], y as [s'|s'| |s' m' e']; cbn [nanOrNonneg hasSign];
    intros Hx Hy; subst; try exact I; try reflexivity; try contradiction.
  apply nanOrNonneg_of_sign. apply (div_sign false false); cbn; auto.
Qed.

Lemma mul_nonneg x y : nanOrNonneg x -> nanOrNonneg y -> nanOrNonneg (mul x y).
Proof.
  destruct x as [s|s| |s m e], y as [s'|s'| |s' m' e']; cbn [nanOrNonneg];
    intros Hx Hy; subst; try exact I; try reflexivity.
  apply nanOrNonneg_of_sign. unfold mul, SFmul. cbn [xorb].
  apply (binary_round_aux_sign false). lia.
Qed.

(** Halving a mantissa, as the rounding of a wide integer does. *)
Lemma shr_1_half mrs : 0 <= shr_m mrs -> shr_m (shr_1 mrs) = shr_m mrs / 2.
Proof.
  destruct mrs as [m r s]. cbn [shr_m]. intros Hm.
  destruct m as [|p|p]; [reflexivity| |lia].
  destruct p as [p|p|]; cbn [shr_1 shr_m].
  - rewrite Pos2Z.inj_xI. apply Z.div_unique with (r := 1); lia.
  - rewrite Pos2Z.inj_xO. apply Z.div_unique with (r := 0); lia.
  - reflexivity.
Qed.

Lemma iter_shr_1_nonneg q mrs : 0 <= shr_m mrs -> 0 <= shr_m (iter_pos shr_1 q mrs).
Proof. intros H. apply (iter_pos_invariant (fun x => 0 <= shr_m x)); [exact shr_1_nonneg|exact H]. Qed.

Lemma iter_shr_1_div q mrs :
  0 <= shr_m mrs -> shr_m (iter_pos shr_1 q mrs) = shr_m mrs / 2 ^ Z.pos q.
Proof.
  revert mrs. induction q as [q IH|q IH|]; intros mrs Hm; cbn [iter_pos].
  - rewrite IH by (apply iter_shr_1_nonneg, shr_1_nonneg, Hm).
    rewrite IH by (apply shr_1_nonneg, Hm).
    rewrite shr_1_half by exact Hm.
    pose proof (Z.pow_pos_nonneg 2 (Z.pos q) ltac:(lia) ltac:(lia)).
    rewrite !Z.div_div by lia.
    replace (Z.pos q~1) with (1 + Z.pos q + Z.pos q) by lia.
    rewrite !Z.pow_add_r by lia. change (2 ^ 1) with 2. rewrite Z.mul_assoc. reflexivity.
  - rewrite IH by (apply iter_shr_1_nonneg, Hm). rewrite IH by exact Hm.
    pose proof (Z.pow_pos_nonneg 2 (Z.pos q) ltac:(lia) ltac:(lia)).
    rewrite Z.div_div by lia.
    replace (Z.pos q~0) with (Z.pos q + Z.pos q) by lia.
    rewrite Z.pow_add_r by lia. reflexivity.
  - rewrite shr_1_half by exact Hm. reflexivity.
Qed.

Lemma digits2_pos_upper p : Z.pos p < 2 ^ Z.pos (digits2_pos p).
Proof.
  induction p as [p IH|p IH|]; cbn [digits2_pos]; [| |cbn; lia].
  all: rewrite Pos2Z.inj_succ, Z.pow_succ_r by lia; lia.
Qed.

(** Dropping the digits beyond the 53rd leaves at least 2^52. *)
Lemma top_digits_lower p :
  53 <= Z.pos (digits2_pos p) ->
  2 ^ 52 <= Z.pos p / 2 ^ (Z.pos (digits2_pos p) - 53).
Proof.
  intros Hd. pose proof (digits2_pos_lower p) as Hlow.
  set (d := Z.pos (digits2_pos p)) in *.
  assert (Hpow : 2 ^ (d - 1) = 2 ^ 52 * 2 ^ (d - 53)).
  { rewrite <- Z.pow_add_r by lia. f_equal. lia. }
  pose proof (Z.pow_pos_nonneg 2 (d - 53) ltac:(lia) ltac:(lia)) as Hpos.
  rewrite <- (Z.div_mul (2 ^ 52) (2 ^ (d - 53))) by lia.
  apply Z.div_le_mono; [exact Hpos|]. rewrite <- Hpow. exact Hlow.
Qed.

Lemma round_nearest_even_lower m l : m <= round_nearest_even m l.
Proof. destruct l as [|[]]; cbn; try lia. destruct (Z.even m); lia. Qed.

Lemma digits2_pos_of_lower p n : 0 <= n -> 2 ^ n <= Z.pos p -> n < Z.pos (digits2_pos p).
Proof.
  intros Hn Hp. pose proof (digits2_pos_upper p) as Hup.
  destruct (Z_lt_le_dec n (Z.pos (digits2_pos p))) as [|Hle]; [assumption|exfalso].
  assert (2 ^ Z.pos (digits2_pos p) <= 2 ^ n) by (apply Z.pow_le_mono_r; lia).
  lia.
Qed.

(** The shift that brings a mantissa of at least 53 digits back to 53. *)
Lemma shr_fexp_wide p e l :
  53 <= Z.pos (digits2_pos p) -> 0 <= e ->
  exists mrs e',
    shr_fexp prec emax (Z.pos p) e l = (mrs, e')
    /\ e <= e' /\ 2 ^ 52 <= shr_m mrs
    /\ (53 < Z.pos (digits2_pos p) -> e < e').
Proof.
  intros Hd He. unfold shr_fexp, shr, fexp, emin. cbn [Zdigits2].
  replace (Z.max (Z.pos (digits2_pos p) + e - prec) (3 - emax - prec) - e)
    with (Z.pos (digits2_pos p) - 53) by (unfold prec, emax; lia).
  assert (Hrec : shr_m (shr_record_of_loc (Z.pos p) l) = Z.pos p)
    by (destruct l as [|[]]; reflexivity).
  destruct (Z.pos (digits2_pos p) - 53) as [|q|q] eqn:Hq; try lia.
  - eexists _, _. split; [reflexivity|]. rewrite Hrec. repeat split; try lia.
    pose proof (top_digits_lower p Hd) as H. rewrite Hq in H. cbn in H. 
    rewrite Z.div_1_r in H. exact H.
  - eexists _, _. split; [reflexivity|]. repeat split; try lia.
    rewrite iter_shr_1_div by (rewrite Hrec; lia). rewrite Hrec, <- Hq.
    apply top_digits_lower. exact Hd.
Qed.

(** An integer of more than 53 digits rounds to a number with a positive
    exponent, or to infinity. *)
Lemma binary_round_aux_big s p :
  53 < Z.pos (digits2_pos p) ->
  match binary_round_aux prec emax s (Z.pos p) 0 loc_Exact with
  | S754_finite s' _ e' => s' = s /\ 0 < e'
  | S754_infinity s' => s' = s
  | _ => False
  end.
Proof.
  intros Hd. unfold binary_round_aux.
  destruct (shr_fexp_wide p 0 loc_Exact ltac:(lia) ltac:(lia))
    as (mrs1 & e1 & -> & He1 & Hm1 & Hlt).
  specialize (Hlt Hd).
  pose proof (round_nearest_even_lower (shr_m mrs1) (loc_of_shr_record mrs1)) as Hm2.
  destruct (round_nearest_even (shr_m mrs1) (loc_of_shr_record mrs1)) as [|p2|p2] eqn:E2;
    try (pose proof (Z.pow_pos_nonneg 2 52 ltac:(lia) ltac:(lia)); lia).
  assert (Hd2 : 53 <= Z.pos (digits2_pos p2)).
  { pose proof (digits2_pos_of_lower p2 52 ltac:(lia) ltac:(lia)). lia. }
  destruct (shr_fexp_wide p2 e1 loc_Exact Hd2 ltac:(lia))
    as (mrs2 & e2 & -> & He2 & Hm2' & _).
  destruct (shr_m mrs2) as [|p3|p3];
    try (pose proof (Z.pow_pos_nonneg 2 52 ltac:(lia) ltac:(lia)); lia).
  destruct (e2 <=? emax - prec); [split; [reflexivity|lia]|reflexivity].
Qed.

(** An integer that is at least 1 converts to a number that is at least 1. *)
Lemma of_Z_ge_one k : 1 <= k -> leb (of_Z 1) (of_Z k) = true.
Proof.
  intros Hk. destruct k as [|p|p]; try lia.
  destruct (Z_le_gt_dec (Z.pos (digits2_pos p)) 53) as [Hsmall|Hbig].
  - unfold of_Z at 2. unfold binary_normalize, binary_round, shl_align.
    assert (Hfexp : fexp prec emax (Z.pos (digits2_pos p) + 0)
                    = Z.pos (digits2_pos p) - 53).
    { unfold fexp, emin, prec, emax. lia. }
    rewrite Hfexp.
    destruct (Z.pos (digits2_pos p) - 53 - 0) as [|q|q] eqn:Hq; try lia.
    + rewrite binary_round_aux_canonical; [| unfold prec; lia | lia].
      reflexivity.
    + rewrite binary_round_aux_canonical; [| | lia].
      2:{ rewrite digits2_pos_iter_xO. unfold prec. lia. }
      change (of_Z 1) with (S754_finite false 4503599627370496 (-52)).
      unfold leb, SFleb, SFcompare.
      destruct (Z.compare_spec (-52) (Z.pos (digits2_pos p) - 53)) as [Heq|Hlt|Hgt];
        [|reflexivity|lia].
      assert (Hone : digits2_pos p = 1%positive) by lia.
      destruct p; cbn in Hone; try (destruct (digits2_pos p); discriminate).
      assert (q = 52%positive) by lia. subst q. reflexivity.
  - unfold of_Z at 2. unfold binary_normalize, binary_round, shl_align.
    assert (Hfexp : fexp prec emax (Z.pos (digits2_pos p) + 0)
                    = Z.pos (digits2_pos p) - 53).
    { unfold fexp, emin, prec, emax. lia. }
    rewrite Hfexp.
    destruct (Z.pos (digits2_pos p) - 53 - 0) as [|q|q] eqn:Hq; try lia.
    pose proof (binary_round_aux_big false p ltac:(lia)) as H.
    destruct (binary_round_aux prec emax false (Z.pos p) 0 loc_Exact)
      as [s'|s'| |s' m' e']; try contradiction.
    + subst s'. reflexivity.
    + destruct H as [-> He]. change (of_Z 1) with (S754_finite false 4503599627370496 (-52)).
      unfold leb, SFleb, SFcompare.
      destruct (Z.compare_spec (-52) e'); [lia|reflexivity|lia].
Qed.

(** A rounded number whose integer part is not 0 is an integer other than 0. *)
Lemma Math_round_integer x :
  IntegerPart (Math_round x) <> 0 ->
  exists s m e, x = S754_finite s m e
                /\ round_half_up_Z s m e <> 0
                /\ Math_round x = of_Z (round_half_up_Z s m e).
Proof.
  destruct x as [s|s| |s m e]; cbn [Math_round IntegerPart]; try congruence.
  destruct (Z.eqb_spec (round_half_up_Z s m e) 0) as [Hk|Hk]; cbn [IntegerPart];
    [congruence|].
  intros _. exists s, m, e. auto.
Qed.

End Binary64.

(* ================================================================== *)
(** ** The size of a derivative *)

Lemma finalHeight_nonneg img targetWidth :
  0 < HTMLImageElement.width img < 2 ^ 53 ->
  0 < HTMLImageElement.height img < 2 ^ 53 ->
  0 < targetWidth ->
  hasSign false (finalHeight img targetWidth).
Proof.
  intros Hw Hh Ht. unfold finalHeight, aspectRatio.
  assert (Hfw : 0 < finalWidth img targetWidth < 2 ^ 53) by (unfold finalWidth; lia).
  apply Math_round_sign.
  apply (mul_sign false false).
  - apply of_Z_nonneg. lia.
  - apply (div_sign false false).
    + apply of_Z_nonneg. lia.
    + apply of_Z_nonneg. lia.
    + apply of_Z_finite. exact Hh.
    + apply of_Z_finite. exact Hw.
  - apply of_Z_finite. exact Hfw.
Qed.

(** The product that is rounded to the height is NaN or not below zero. *)
Lemma finalHeight_nanOrNonneg img targetWidth :
  0 < HTMLImageElement.width img ->
  0 < HTMLImageElement.height img ->
  0 < targetWidth ->
  nanOrNonneg (mul (of_Z (finalWidth img targetWidth)) (aspectRatio img)).
Proof.
  intros Hw Hh Ht. apply mul_nonneg.
  - apply nanOrNonneg_of_sign, of_Z_nonneg. unfold finalWidth. lia.
  - unfold aspectRatio. apply div_nonneg.
    + apply nanOrNonneg_of_sign, of_Z_nonneg. lia.
    + apply of_Z_nonneg. lia.
Qed.

Lemma hasPixels_height c : hasPixels c = true -> 0 < canvas_height c.
Proof.
  unfold hasPixels. intros H. apply andb_true_iff in H as [_ H].
  apply Z.ltb_lt. exact H.
Qed.

(** An encoder that gives no blob for an empty canvas has delivered one only
    for a canvas with pixels. *)
Lemma encoded_has_pixels toBlob format options c b :
  rejectsEmpty toBlob ->
  requestBlob toBlob format options c = Encoded b ->
  hasPixels c = true.
Proof.
  intros Hrej Hreq. destruct (hasPixels c) eqn:Hpx; [reflexivity|exfalso].
  unfold requestBlob in Hreq.
  destruct ((ImageFormat.extension format =? "png")%string
            || ProcessingOptions.lossless options);
    exact (Hrej _ _ _ b Hpx Hreq).
Qed.

(** A canvas with pixels was given a height that is an integer of at least
    1. *)
Lemma finalHeight_positive img targetWidth :
  0 < HTMLImageElement.width img ->
  0 < HTMLImageElement.height img ->
  0 < targetWidth ->
  hasPixels (resizedCanvas img targetWidth) = true ->
  exists k, 1 <= k /\ finalHeight img targetWidth = of_Z k.
Proof.
  intros Hw Hh Ht Hpx. apply hasPixels_height in Hpx.
  unfold resizedCanvas in Hpx. cbn [canvas_height] in Hpx.
  assert (Hint : IntegerPart (finalHeight img targetWidth) <> 0).
  { intros H0. unfold ulong_of_number in Hpx. rewrite H0 in Hpx.
    vm_compute in Hpx. discriminate Hpx. }
  unfold finalHeight in *.
  pose proof (finalHeight_nanOrNonneg img targetWidth Hw Hh Ht) as Hsign.
  destruct (Math_round_integer _ Hint) as (s & m & e & Hx & Hk & Hround).
  rewrite Hx in Hsign. cbn [nanOrNonneg] in Hsign. subst s.
  exists (round_half_up_Z false m e). split; [|exact Hround].
  pose proof (round_half_up_Z_nonneg m e). lia.
Qed.

(** C3, as the program has it.  For a source of positive width and height
    and a positive target width, with an encoder that gives no blob for an
    empty canvas, the derivative that is returned has width [min tw w0], at
    least 1, and height [Math.round (width * (h0 / w0))] with quotient and
    product evaluated in binary64, an integer that is at least 1. *)
Theorem resized_dimensions toBlob img targetWidth format options sizeSuffix w b :
  rejectsEmpty toBlob ->
  0 < HTMLImageElement.width img ->
  0 < HTMLImageElement.height img ->
  0 < targetWidth ->
  requestBlob toBlob format options (resizedCanvas img targetWidth) = Encoded b ->
  exists d w',
    createResizedImage toBlob img targetWidth format options sizeSuffix w = (Return d, w')
    /\ ProcessedImage.width (ProcessedImage.dimensions d)
       = Z.min targetWidth (HTMLImageElement.width img)
    /\ 1 <= ProcessedImage.width (ProcessedImage.dimensions d)
    /\ ProcessedImage.height (ProcessedImage.dimensions d)
       = Math_round (mul (of_Z (ProcessedImage.width (ProcessedImage.dimensions d)))
                       (div (of_Z (HTMLImageElement.height img))
                            (of_Z (HTMLImageElement.width img))))
    /\ (exists k, 1 <= k /\ ProcessedImage.height (ProcessedImage.dimensions d) = of_Z k)
    /\ leb (of_Z 1) (ProcessedImage.height (ProcessedImage.dimensions d)) = true.
Proof.
  intros Hrej Hw Hh Ht Hreq.
  pose proof (encoded_has_pixels _ _ _ _ _ Hrej Hreq) as Hpx.
  destruct (finalHeight_positive img targetWidth Hw Hh Ht Hpx) as [k [Hk Hfh]].
  rewrite createResizedImage_eq, Hreq. cbv zeta.
  eexists _, _. split; [reflexivity|].
  cbn [resized ProcessedImage.dimensions ProcessedImage.width ProcessedImage.height].
  split; [reflexivity|]. split; [unfold finalWidth; lia|]. split; [reflexivity|].
  split.
  - exists k. split; assumption.
  - rewrite Hfh. apply of_Z_ge_one. exact Hk.
Qed.

Lemma resized_dimensions_witness :
  exists d w',
    createResizedImage htmlEncoder (HTMLImageElement.mk 3840 2160) 1920 WebP
      scenarioOptions "1920" freshWorld = (Return d, w')
    /\ ProcessedImage.width (ProcessedImage.dimensions d) = Z.min 1920 3840
    /\ 1 <= ProcessedImage.width (ProcessedImage.dimensions d)
    /\ ProcessedImage.height (ProcessedImage.dimensions d)
       = Math_round (mul (of_Z (ProcessedImage.width (ProcessedImage.dimensions d)))
                       (div (of_Z 2160) (of_Z 3840)))
    /\ (exists k, 1 <= k /\ ProcessedImage.height (ProcessedImage.dimensions d) = of_Z k)
    /\ leb (of_Z 1) (ProcessedImage.height (ProcessedImage.dimensions d)) = true.
Proof.
  apply (resized_dimensions htmlEncoder (HTMLImageElement.mk 3840 2160) 1920 WebP
           scenarioOptions "1920" freshWorld
           (Blob.mk "image/webp" (1920 * 1080))).
  - exact htmlEncoder_rejectsEmpty.
  - cbn; lia.
  - cbn; lia.
  - lia.
  - vm_compute; reflexivity.
Defined.

(** C3 as stated fails at an exact tie.  A 14 by 61 source at target width
    7: the exact quotient [7 * 61 / 14] is 30.5, which rounds half up to 31,
    but the binary64 product [7 * (61 / 14)] is just below 30.5 and the
    derivative is 30 high. *)
Lemma resized_height_below_exact_rounding :
  exists d w',
    createResizedImage htmlEncoder (HTMLImageElement.mk 14 61) 7 WebP
      scenarioOptions "7" freshWorld = (Return d, w')
    /\ ProcessedImage.width (ProcessedImage.dimensions d) = 7
    /\ ProcessedImage.height (ProcessedImage.dimensions d) = of_Z 30
    /\ roundHalfUp (7 * 61) 14 = 31.
Proof.
  eexists _, _. split; [vm_compute; reflexivity|].
  repeat split; vm_compute; reflexivity.
Qed.

(** The no-upscale scenario of the specification: 1000 by 1000 at target
    width 1920 stays 1000 by 1000. *)
Example no_upscale :
  finalWidth (HTMLImageElement.mk 1000 1000) 1920 = 1000
  /\ finalHeight (HTMLImageElement.mk 1000 1000) 1920 = of_Z 1000.
Proof. split; vm_compute; reflexivity. Qed.

Example heights_of_default_breakpoints :
  map (fun bp => finalHeight (HTMLImageElement.mk 3840 2160) (Breakpoint.width bp))
      DEFAULT_BREAKPOINTS
  = map of_Z [2160; 1440; 1080; 576; 432; 270].
Proof. vm_compute. reflexivity. Qed.

(* ================================================================== *)
(** ** The quality analyzer *)

Lemma range_empty lo hi : hi <= lo -> range lo hi = [].
Proof.
  intros H. unfold range. replace (Z.to_nat (hi - lo)) with 0%nat by lia. reflexivity.
Qed.

Lemma laplacianValues_no_interior imageData :
  ImageData.width imageData <= 2 \/ ImageData.height imageData <= 2 ->
  laplacianValues imageData = [].
Proof.
  unfold laplacianValues. intros [Hw|Hh].
  - rewrite (range_empty 1 (ImageData.width imageData - 1)) by lia. cbn [map].
    induction (range 1 (ImageData.height imageData - 1)) as [|y ys IH];
      [reflexivity|exact IH].
  - rewrite (range_empty 1 (ImageData.height imageData - 1)) by lia. reflexivity.
Qed.

(** What is left of the bound when the score is NaN: the variance is never
    below zero. *)
Lemma binary_normalize_nonneg m e :
  0 <= m -> hasSign false (binary_normalize prec emax m e false).
Proof.
  intros Hm. unfold binary_normalize. destruct m as [|p|p]; [reflexivity| |lia].
  unfold binary_round.
  destruct (shl_align p e (fexp prec emax (Z.pos (digits2_pos p) + e))) as [mz ez].
  apply binary_round_aux_sign. lia.
Qed.

Lemma pow2_nonneg v : nanOrNonneg (pow2 v).
Proof.
  unfold pow2. destruct v as [s|s| |s m e]; cbn; try (destruct s; reflexivity); [exact I|].
  apply nanOrNonneg_of_sign.
  replace false with (xorb s s) by apply xorb_nilpotent.
  unfold mul, SFmul. rewrite xorb_nilpotent.
  apply (binary_round_aux_sign false). lia.
Qed.

Lemma add_nonneg x y : nanOrNonneg x -> nanOrNonneg y -> nanOrNonneg (add x y).
Proof.
  destruct x as [s|s| |s m e], y as [s'|s'| |s' m' e']; cbn [nanOrNonneg];
    intros Hx Hy; subst; try exact I; try reflexivity.
  apply nanOrNonneg_of_sign. unfold add, SFadd. cbn [cond_Zopp].
  apply binary_normalize_nonneg. lia.
Qed.

Lemma sum_of_squares_nonneg mean values acc :
  nanOrNonneg acc ->
  nanOrNonneg (fold_left (fun sum val => add sum (pow2 (sub val mean))) values acc).
Proof.
  revert acc. induction values as [|v values IH]; intros acc Hacc; [exact Hacc|].
  cbn [fold_left]. apply IH. apply add_nonneg; [exact Hacc|apply pow2_nonneg].
Qed.

(** X8.  On every bitmap the variance of the edge responses is NaN or a number
    that is at least 0: it is never below zero. *)
Lemma sharpness_never_negative imageData :
  ltb (calculateLaplacianVariance imageData) (of_Z 0) = false.
Proof.
  assert (H : nanOrNonneg (calculateLaplacianVariance imageData)).
  { unfold calculateLaplacianVariance. apply div_nonneg.
    - apply sum_of_squares_nonneg. reflexivity.
    - apply of_Z_nonneg. lia. }
  destruct (calculateLaplacianVariance imageData) as [s|s| |s m e]; cbn in H; subst;
    reflexivity.
Qed.

(** C8 fails on the program.  On a bitmap that is at most two pixels wide
    or high the list of edge responses is empty, mean and variance are
    [0 / 0], and the sharpness is NaN: it is not a number that is at least
    0, and the blur level falls through to [very_blurry]. *)
Theorem sharpness_nan_without_interior imageData :
  ImageData.width imageData <= 2 \/ ImageData.height imageData <= 2 ->
  calculateLaplacianVariance imageData = NaN
  /\ leb (of_Z 0) (calculateLaplacianVariance imageData) = false
  /\ classifyBlurLevel (calculateLaplacianVariance imageData) = very_blurry.
Proof.
  intros H. unfold calculateLaplacianVariance.
  rewrite (laplacianValues_no_interior _ H). repeat split; vm_compute; reflexivity.
Qed.

Lemma sharpness_nan_without_interior_witness :
  calculateLaplacianVariance (solid 0 0 0 1 1) = NaN
  /\ leb (of_Z 0) (calculateLaplacianVariance (solid 0 0 0 1 1)) = false
  /\ classifyBlurLevel (calculateLaplacianVariance (solid 0 0 0 1 1)) = very_blurry.
Proof.
  apply (sharpness_nan_without_interior (solid 0 0 0 1 1)).
  left. cbn. lia.
Defined.

(** A flat bitmap with an interior has sharpness 0. *)
Example flat_image_sharpness :
  calculateLaplacianVariance (solid 10 20 30 4 4) = of_Z 0
  /\ classifyBlurLevel (calculateLaplacianVariance (solid 10 20 30 4 4)) = very_blurry.
Proof. split; vm_compute; reflexivity. Qed.




(** Twelve pixels, black but for one white pixel.  With the white pixel at
    index 10 it is sampled next to pixel 0 and the contrast is 255; at
    index 5 it is passed over and the contrast is 0. *)
Example contrast_samples_every_tenth_pixel :
  let strip white :=
    ImageData.mk
      (flat_map (fun p => if Nat.eqb p white then [255; 255; 255; 255] else [0; 0; 0; 255])
                (seq 0 12))
      12 1 in
  calculateContrast (strip 10%nat) = of_Z 255
  /\ calculateContrast (strip 5%nat) = of_Z 0
  /\ calculateConfidence (HTMLImageElement.mk 1000 600) (strip 10%nat)
     = add (add (lit 5 10) (lit 2 10)) (lit 2 10)
  /\ calculateConfidence (HTMLImageElement.mk 1000 600) (strip 5%nat)
     = sub (add (lit 5 10) (lit 2 10)) (lit 1 10).
Proof. repeat split; vm_compute; reflexivity. Qed.

Example confidence_one_pixel :
  calculateConfidence (HTMLImageElement.mk 1 1) (solid 0 0 0 1 1)
  = sub (sub (lit 5 10) (lit 2 10)) (lit 1 10).
Proof. vm_compute. reflexivity. Qed.

Example confidence_black_4K :
  calculateConfidence (HTMLImageElement.mk 3840 2160) (solid 0 0 0 8 6)
  = sub (add (lit 5 10) (lit 3 10)) (lit 1 10).
Proof. vm_compute. reflexivity. Qed.

(** A four by four checkerboard of black and white is classified sharp. *)
Example checkerboard_sharpness :
  let board := [0; 255; 0; 255; 255; 0; 255; 0; 0; 255; 0; 255; 255; 0; 255; 0] in
  let imageData := ImageData.mk (flat_map (fun v => [v; v; v; 255]) board) 4 4 in
  calculateLaplacianVariance imageData = of_Z 1040400
  /\ classifyBlurLevel (calculateLaplacianVariance imageData) = sharp.
Proof. split; vm_compute; reflexivity. Qed.

(* ================================================================== *)
(** ** Checks of the number model and of the remaining scenarios *)

(** The literals of the analyzer, against their binary64 encodings
    (0x1.322d0e5604189p-2, 0x1.2c8b439581062p-1, 0x1.d2f1a9fbe76c9p-4). *)
Example literals_of_luminance :
  lit 299 1000 = S754_finite false 5386305154335113 (-54)
  /\ lit 587 1000 = S754_finite false 5287225962532962 (-53)
  /\ lit 114 1000 = S754_finite false 8214565720323785 (-56).
Proof. repeat split; vm_compute; reflexivity. Qed.

Example Math_round_cases :
  Math_round (lit 5 10) = of_Z 1
  /\ Math_round (lit 49 100) = S754_zero false
  /\ Math_round (lit 25 10) = of_Z 3
  /\ Math_round (SFopp (lit 25 10)) = of_Z (-2)
  /\ Math_round (SFopp (lit 5 10)) = S754_zero true
  /\ Math_round NaN = NaN
  /\ Math_round Infinity = Infinity.
Proof. repeat split; vm_compute; reflexivity. Qed.

Example division_by_zero :
  div (of_Z 0) (of_Z 0) = NaN
  /\ div (of_Z 1) (of_Z 0) = Infinity
  /\ mul (of_Z 0) Infinity = NaN.
Proof. repeat split; vm_compute; reflexivity. Qed.

Example Math_min_max_cases :
  Math_min [] = Infinity
  /\ Math_max [] = NegInfinity
  /\ Math_min [of_Z 3; of_Z 1; of_Z 2] = of_Z 1
  /\ Math_max [of_Z 3; NaN; of_Z 2] = NaN.
Proof. repeat split; vm_compute; reflexivity. Qed.

(** Where no pair is skipped the last progress record does reach the
    total. *)
Lemma progress_completes_without_skip options :
  ProcessingOptions.lossless options = false ->
  Z.of_nat (List.length (allTasks options)) = totalSteps options.
Proof.
  intros Hl. rewrite allTasks_count. unfold derivativeCount, totalSteps, retinaFactor.
  rewrite Hl. lia.
Qed.

(** The run of the first scenario through [handleProcess]: eight
    derivatives, eight progress records, the last one 8 of 8. *)
Example handleProcess_scenario :
  let st := mkApp (Some source4K) scenarioOptions EmptyString false None [] false in
  let '(st', records) := handleProcess htmlEncoder st in
  error st' = EmptyString
  /\ isComplete st' = true
  /\ List.length (processedImages st') = 8%nat
  /\ map (fun p => (ProcessingProgress.current p, ProcessingProgress.total p)) records
     = [(1, 8); (2, 8); (3, 8); (4, 8); (5, 8); (6, 8); (7, 8); (8, 8)]
  /\ map ProcessingProgress.currentTask records
     = [ "Processing 1080p WebP"; "Processing 1080p WebP @2x";
         "Processing 1080p JPEG"; "Processing 1080p JPEG @2x";
         "Processing Mobile WebP"; "Processing Mobile WebP @2x";
         "Processing Mobile JPEG"; "Processing Mobile JPEG @2x" ].
Proof. vm_compute. repeat split; reflexivity. Qed.

(** A file the browser cannot decode. *)
Example undecodable_file :
  processImage htmlEncoder (File.mk "broken.png" None) scenarioOptions freshWorld
  = (Throw "Failed to process image: Failed to load image", freshWorld).
Proof. reflexivity. Qed.

(* ================================================================== *)
(** ** Rejections of the processor *)

(** X1.  A file that does not decode: the run rejects before anything is drawn
    or reported. *)
Theorem processImage_load_failure toBlob file options w :
  File.image file = None ->
  processImage toBlob file options w
  = (Throw "Failed to process image: Failed to load image", w).
Proof.
  intros Himg. unfold processImage, tryCatch, bind, loadImage. rewrite Himg.
  reflexivity.
Qed.

Lemma processImage_load_failure_witness :
  processImage htmlEncoder (File.mk "broken.png" None) scenarioOptions freshWorld
  = (Throw "Failed to process image: Failed to load image", freshWorld).
Proof.
  apply (processImage_load_failure htmlEncoder (File.mk "broken.png" None)
           scenarioOptions freshWorld).
  reflexivity.
Defined.

Lemma createResizedImage_rejects toBlob img targetWidth format options sizeSuffix w :
  rejectsEmpty toBlob ->
  hasPixels (resizedCanvas img targetWidth) = false ->
  exists cause w',
    createResizedImage toBlob img targetWidth format options sizeSuffix w =
    (Throw ("Failed to create " ++ sizeSuffix ++ " image: " ++ cause), w').
Proof.
  intros Hrej Hpx. rewrite createResizedImage_eq. cbv zeta.
  destruct (requestBlob toBlob format options (resizedCanvas img targetWidth))
    as [b| |message] eqn:Hreq.
  - exfalso. unfold requestBlob in Hreq.
    destruct ((ImageFormat.extension format =? "png")%string
              || ProcessingOptions.lossless options);
      exact (Hrej _ _ _ b Hpx Hreq).
  - eexists _, _. reflexivity.
  - eexists _, _. reflexivity.
Qed.

(** A loop rejects as soon as it reaches an element whose body rejects. *)
Lemma forOf_throws {A S} (body : A -> S -> Async S) xs x :
  In x xs ->
  (forall s w, exists message w', body x s w = (Throw message, w')) ->
  forall s w, exists message w', forOf xs body s w = (Throw message, w').
Proof.
  intros Hin Hx. induction xs as [|y ys IH]; [destruct Hin|].
  intros s w. cbn [forOf]. unfold bind.
  destruct Hin as [->|Hin].
  - destruct (Hx s w) as (message & w' & ->). eexists _, _. reflexivity.
  - destruct (body y s w) as [[s'|message] w'].
    + apply IH. exact Hin.
    + eexists _, _. reflexivity.
Qed.

(** If one selected breakpoint gives a canvas without pixels, some selected
    format is not skipped and the encoder gives no blob for an empty canvas,
    the whole run rejects. *)
Lemma processImage_rejects_on_empty_canvas toBlob file img options breakpoint format w :
  rejectsEmpty toBlob ->
  File.image file = Some img ->
  In breakpoint (ProcessingOptions.breakpoints options) ->
  hasPixels (resizedCanvas img (Breakpoint.width breakpoint)) = false ->
  In format (ProcessingOptions.formats options) ->
  skipped options format = false ->
  exists cause w',
    processImage toBlob file options w = (Throw ("Failed to process image: " ++ cause), w').
Proof.
  intros Hrej Himg Hbp Hpx Hf Hskip.
  unfold processImage, tryCatch, bind at 1, loadImage. rewrite Himg. unfold ret at 1.
  unfold bind.
  destruct (forOf_throws
              (fun bp => forOf (ProcessingOptions.formats options)
                           (processPair toBlob img options (totalSteps options) bp))
              (ProcessingOptions.breakpoints options) breakpoint Hbp) with
    (s := mkLocals [] 0) (w := w) as (message & w' & ->).
  - intros s w0.
    apply (forOf_throws (processPair toBlob img options (totalSteps options) breakpoint)
             (ProcessingOptions.formats options) format Hf).
    intros l w1. unfold processPair. unfold skipped in Hskip. rewrite Hskip.
    unfold bind at 1.
    destruct (createResizedImage_rejects toBlob img (Breakpoint.width breakpoint) format
                options (toString (Breakpoint.width breakpoint)) w1 Hrej Hpx)
      as (cause & w2 & ->).
    eexists _, _. reflexivity.
  - eexists _, _. reflexivity.
Qed.

(** In that strip the first breakpoint is encoded and reported before the
    second one rejects: its progress records stay, its derivatives do not. *)
Example strip_run :
  processImage htmlEncoder (File.mk "strip.png" (Some (HTMLImageElement.mk 3000 1)))
    scenarioOptions freshWorld
  = (Throw "Failed to process image: Failed to create 768 image: Failed to create blob",
     mkWorld (mkCanvas 768 0)
       (progressFrom 0 8 [ "Processing 1080p WebP"; "Processing 1080p WebP @2x";
                           "Processing 1080p JPEG"; "Processing 1080p JPEG @2x" ])).
Proof. vm_compute. reflexivity. Qed.

(* ================================================================== *)
(** ** [handleProcess] around the processor *)

(** X3.  A run that succeeds: the derivatives of the processor are stored in
    their order, the run is marked complete, the error, the busy flag and
    the progress record are cleared, and [setProgress] saw the records
    numbered from 1. *)
Theorem handleProcess_stores_derivatives toBlob st file img :
  selectedFile st = Some file ->
  File.image file = Some img ->
  ProcessingOptions.formats (options st) <> [] ->
  ProcessingOptions.breakpoints (options st) <> [] ->
  encodesPixels toBlob ->
  sizesOk img (options st) = true ->
  handleProcess toBlob st =
  (mkApp (Some file) (options st) EmptyString false None
     (allImages toBlob img (options st)) true,
   progressFrom 0 (totalSteps (options st)) (allTasks (options st))).
Proof.
  intros Hfile Himg Hf Hb Henc Hsz. unfold handleProcess. rewrite Hfile.
  destruct (ProcessingOptions.formats (options st)) as [|f fs] eqn:Ef; [congruence|].
  destruct (ProcessingOptions.breakpoints (options st)) as [|b bs] eqn:Eb; [congruence|].
  cbn [List.length Nat.eqb orb].
  destruct (processImage_ok toBlob file img (options st) (mkWorld createCanvas [])
              Himg Henc Hsz) as [c ->].
  cbn [emitted app]. reflexivity.
Qed.

Lemma handleProcess_stores_derivatives_witness :
  let st := mkApp (Some source4K) scenarioOptions "stale" false None [] false in
  handleProcess htmlEncoder st =
  (mkApp (Some source4K) scenarioOptions EmptyString false None
     (allImages htmlEncoder (HTMLImageElement.mk 3840 2160) scenarioOptions) true,
   progressFrom 0 (totalSteps scenarioOptions) (allTasks scenarioOptions)).
Proof.
  cbv zeta.
  apply (handleProcess_stores_derivatives htmlEncoder
           (mkApp (Some source4K) scenarioOptions "stale" false None [] false)
           source4K (HTMLImageElement.mk 3840 2160)).
  - reflexivity.
  - reflexivity.
  - discriminate.
  - discriminate.
  - exact htmlEncoder_encodesPixels.
  - vm_compute; reflexivity.
Defined.

(** X2.  Fail fast.  If one selected breakpoint gives a canvas without pixels,
    some selected format is not skipped and the encoder gives no blob for
    an empty canvas, the processor rejects whatever the other breakpoints
    would have produced, and [handleProcess] shows one fixed message, keeps
    the derivatives of the earlier run and leaves the run neither complete
    nor busy. *)
Theorem handleProcess_fails_fast toBlob st file img breakpoint format :
  selectedFile st = Some file ->
  File.image file = Some img ->
  rejectsEmpty toBlob ->
  In breakpoint (ProcessingOptions.breakpoints (options st)) ->
  hasPixels (resizedCanvas img (Breakpoint.width breakpoint)) = false ->
  In format (ProcessingOptions.formats (options st)) ->
  skipped (options st) format = false ->
  (exists cause w',
      processImage toBlob file (options st) (mkWorld createCanvas [])
      = (Throw ("Failed to process image: " ++ cause), w'))
  /\ fst (handleProcess toBlob st) =
     mkApp (Some file) (options st) "Failed to process images. Please try again."
       false None (processedImages st) false.
Proof.
  intros Hfile Himg Hrej Hbp Hpx Hf Hskip.
  destruct (processImage_rejects_on_empty_canvas toBlob file img (options st) breakpoint
              format (mkWorld createCanvas []) Hrej Himg Hbp Hpx Hf Hskip)
    as (cause & w' & Hrun).
  split; [eexists _, _; exact Hrun|].
  unfold handleProcess. rewrite Hfile.
  destruct (ProcessingOptions.formats (options st)) as [|f fs] eqn:Ef; [destruct Hf|].
  destruct (ProcessingOptions.breakpoints (options st)) as [|b bs] eqn:Eb; [destruct Hbp|].
  cbn [List.length Nat.eqb orb]. rewrite Hrun. reflexivity.
Qed.

Lemma handleProcess_fails_fast_witness :
  let strip := File.mk "strip.png" (Some (HTMLImageElement.mk 3000 1)) in
  let previous := allImages htmlEncoder (HTMLImageElement.mk 3840 2160) scenarioOptions in
  (exists cause w',
      processImage htmlEncoder strip scenarioOptions (mkWorld createCanvas [])
      = (Throw ("Failed to process image: " ++ cause), w'))
  /\ fst (handleProcess htmlEncoder
            (mkApp (Some strip) scenarioOptions EmptyString false None previous true)) =
     mkApp (Some strip) scenarioOptions "Failed to process images. Please try again."
       false None previous false.
Proof.
  cbv zeta.
  apply (handleProcess_fails_fast htmlEncoder
           (mkApp (Some (File.mk "strip.png" (Some (HTMLImageElement.mk 3000 1))))
              scenarioOptions EmptyString false None
              (allImages htmlEncoder (HTMLImageElement.mk 3840 2160) scenarioOptions) true)
           (File.mk "strip.png" (Some (HTMLImageElement.mk 3000 1)))
           (HTMLImageElement.mk 3000 1) bpMobile WebP).
  - reflexivity.
  - reflexivity.
  - exact htmlEncoder_rejectsEmpty.
  - right; left; reflexivity.
  - vm_compute; reflexivity.
  - left; reflexivity.
  - reflexivity.
Defined.

(** X4.  The configuration message appears exactly when no file is selected or a
    list is empty; in every other case the run leaves the busy flag and the
    progress record cleared.  In particular it never appears in a state
    where the Process button is enabled. *)
Theorem handleProcess_guard toBlob st :
  (error (fst (handleProcess toBlob st)) = "Please select formats and breakpoints"
   <-> selectedFile st = None
       \/ ProcessingOptions.formats (options st) = []
       \/ ProcessingOptions.breakpoints (options st) = [])
  /\ (canProcess st = true ->
      error (fst (handleProcess toBlob st)) <> "Please select formats and breakpoints"
      /\ isProcessing (fst (handleProcess toBlob st)) = false
      /\ progress (fst (handleProcess toBlob st)) = None).
Proof.
  assert (Hrun : forall file f fs b bs,
             selectedFile st = Some file ->
             ProcessingOptions.formats (options st) = f :: fs ->
             ProcessingOptions.breakpoints (options st) = b :: bs ->
             error (fst (handleProcess toBlob st)) <> "Please select formats and breakpoints"
             /\ isProcessing (fst (handleProcess toBlob st)) = false
             /\ progress (fst (handleProcess toBlob st)) = None).
  { intros file f fs b bs Hfile Hf Hb. unfold handleProcess. rewrite Hfile, Hf, Hb.
    cbn [List.length Nat.eqb orb].
    destruct (processImage toBlob file (options st) (mkWorld createCanvas []))
      as [[images|message] w]; cbn [fst error isProcessing progress];
      repeat split; discriminate. }
  split.
  - split.
    + intros Herr.
      destruct (selectedFile st) as [file|] eqn:Hfile; [|now left].
      destruct (ProcessingOptions.formats (options st)) as [|f fs] eqn:Hf;
        [now right; left|].
      destruct (ProcessingOptions.breakpoints (options st)) as [|b bs] eqn:Hb;
        [now right; right|].
      exfalso. exact (proj1 (Hrun file f fs b bs eq_refl eq_refl eq_refl) Herr).
    + intros Hcase. unfold handleProcess.
      destruct (selectedFile st) as [file|]; [|reflexivity].
      destruct Hcase as [Hcase|[-> | ->]]; [discriminate|reflexivity|].
      cbn [List.length Nat.eqb]. rewrite orb_true_r. reflexivity.
  - unfold canProcess. intros Hcan.
    destruct (selectedFile st) as [file|] eqn:Hfile; [|discriminate].
    apply andb_true_iff in Hcan as [Hcan Hb]. apply andb_true_iff in Hcan as [_ Hf].
    destruct (ProcessingOptions.formats (options st)) as [|f fs] eqn:Ef;
      [discriminate|].
    destruct (ProcessingOptions.breakpoints (options st)) as [|b bs] eqn:Eb;
      [discriminate|].
    exact (Hrun file f fs b bs eq_refl eq_refl eq_refl).
Qed.

Lemma handleProcess_guard_witness :
  let st := mkApp (Some source4K) scenarioOptions EmptyString false None [] false in
  error (fst (handleProcess htmlEncoder st)) <> "Please select formats and breakpoints"
  /\ isProcessing (fst (handleProcess htmlEncoder st)) = false
  /\ progress (fst (handleProcess htmlEncoder st)) = None.
Proof.
  cbv zeta.
  apply (proj2 (handleProcess_guard htmlEncoder
                  (mkApp (Some source4K) scenarioOptions EmptyString false None [] false))).
  reflexivity.
Defined.

(* ================================================================== *)
(** ** The progress records of a run *)

Lemma progressFrom_currents current total tasks :
  map ProcessingProgress.current (progressFrom current total tasks)
  = map (fun k => current + Z.of_nat k) (seq 1 (List.length tasks)).
Proof.
  revert current. induction tasks as [|task tasks IH]; intros current; [reflexivity|].
  cbn [progressFrom map List.length seq].
  replace (current + Z.of_nat 1) with (current + 1) by lia. f_equal.
  rewrite IH, <- (seq_shift (List.length tasks) 1), map_map.
  apply map_ext. intros k. lia.
Qed.

Lemma progressFrom_tasks current total tasks :
  map ProcessingProgress.currentTask (progressFrom current total tasks) = tasks.
Proof.
  revert current. induction tasks as [|task tasks IH]; intros current; [reflexivity|].
  cbn [progressFrom map ProcessingProgress.currentTask]. now rewrite IH.
Qed.

Lemma progressFrom_totals current total tasks :
  Forall (fun p => ProcessingProgress.total p = total) (progressFrom current total tasks).
Proof.
  revert current. induction tasks as [|task tasks IH]; intros current; constructor;
    [reflexivity|apply IH].
Qed.

(** X5.  In a run that succeeds there is one progress record per derivative, the
    records are numbered 1, 2, ... in the order of the derivatives, and
    without the lossless option the total they carry is the number of
    derivatives, so the last record reads n of n. *)
Theorem progress_follows_derivatives toBlob file img options w :
  File.image file = Some img ->
  encodesPixels toBlob ->
  sizesOk img options = true ->
  exists results c events,
    processImage toBlob file options w = (Return results, mkWorld c (emitted w ++ events)%list)
    /\ map ProcessingProgress.current events
       = map Z.of_nat (seq 1 (List.length results))
    /\ map ProcessingProgress.currentTask events = allTasks options
    /\ (ProcessingOptions.lossless options = false ->
        Forall (fun p => ProcessingProgress.total p = Z.of_nat (List.length results))
               events).
Proof.
  intros Himg Henc Hsz.
  destruct (processImage_ok toBlob file img options w Himg Henc Hsz) as [c Hrun].
  eexists _, _, _. split; [exact Hrun|].
  rewrite allImages_length. split; [|split].
  - rewrite progressFrom_currents. apply map_ext. intros k. cbv beta. lia.
  - apply progressFrom_tasks.
  - intros Hl. rewrite (progress_completes_without_skip options Hl).
    apply progressFrom_totals.
Qed.

Lemma progress_follows_derivatives_witness :
  exists results c events,
    processImage htmlEncoder source4K scenarioOptions freshWorld
    = (Return results, mkWorld c (emitted freshWorld ++ events)%list)
    /\ map ProcessingProgress.current events
       = map Z.of_nat (seq 1 (List.length results))
    /\ map ProcessingProgress.currentTask events = allTasks scenarioOptions
    /\ (ProcessingOptions.lossless scenarioOptions = false ->
        Forall (fun p => ProcessingProgress.total p = Z.of_nat (List.length results))
               events).
Proof.
  apply (progress_follows_derivatives htmlEncoder source4K (HTMLImageElement.mk 3840 2160)
           scenarioOptions freshWorld).
  - reflexivity.
  - exact htmlEncoder_encodesPixels.
  - vm_compute; reflexivity.
Defined.

(* ================================================================== *)
(** ** Choosing a file *)

Lemma handleFileSelect_accepts u v :
  includes ACCEPTED_FILE_TYPES (Upload.type u) = true ->
  Upload.size u <= MAX_FILE_SIZE ->
  selectedFile (appState (handleFileSelect u v)) = Some (Upload.file u)
  /\ error (appState (handleFileSelect u v)) = EmptyString.
Proof.
  intros Htype Hsize. unfold handleFileSelect. rewrite Htype. cbn [negb].
  destruct (Z.gtb_spec (Upload.size u) MAX_FILE_SIZE); [lia|].
  split; reflexivity.
Qed.

(** X9.  Whatever the drop zone hands over, by a drop or by the file input, is
    one of the offered files and is selected by [handleFileSelect] without
    an error: the two validations agree. *)
Theorem dropZone_forwards_only_valid_files files u v :
  handleDrop files = Some u \/ handleFileInput files = Some u ->
  In u files
  /\ selectedFile (appState (handleFileSelect u v)) = Some (Upload.file u)
  /\ error (appState (handleFileSelect u v)) = EmptyString.
Proof.
  intros [Hdrop|Hinput].
  - unfold handleDrop in Hdrop.
    destruct (find (fun file => includes ACCEPTED_FILE_TYPES (Upload.type file)) files)
      as [imageFile|] eqn:Hfind; [|discriminate].
    apply find_some in Hfind as [Hin Htype].
    destruct (Z.leb_spec (Upload.size imageFile) MAX_FILE_SIZE) as [Hsize|];
      [|discriminate].
    injection Hdrop as <-. split; [exact Hin|].
    apply handleFileSelect_accepts; assumption.
  - unfold handleFileInput in Hinput. destruct files as [|file rest]; [discriminate|].
    destruct (includes ACCEPTED_FILE_TYPES (Upload.type file)) eqn:Htype;
      [|discriminate].
    destruct (Z.leb_spec (Upload.size file) MAX_FILE_SIZE) as [Hsize|]; [|discriminate].
    injection Hinput as <-. split; [now left|].
    apply handleFileSelect_accepts; assumption.
Qed.

Lemma dropZone_forwards_only_valid_files_witness :
  let photo := Upload.mk source4K "image/png" 1048576 in
  let notes := Upload.mk (File.mk "notes.txt" None) "text/plain" 12 in
  let v := mkView (mkApp None scenarioOptions EmptyString false None [] false) None true in
  In photo [notes; photo]
  /\ selectedFile (appState (handleFileSelect photo v)) = Some (Upload.file photo)
  /\ error (appState (handleFileSelect photo v)) = EmptyString.
Proof.
  cbv zeta.
  apply (dropZone_forwards_only_valid_files
           [Upload.mk (File.mk "notes.txt" None) "text/plain" 12;
            Upload.mk source4K "image/png" 1048576]).
  left. reflexivity.
Defined.

(** X10.  A drop is decided by the first file of an accepted type alone: when
    that file is above the size limit nothing is selected, whatever files
    follow it. *)
Theorem handleDrop_first_accepted_decides before first after :
  Forall (fun file => includes ACCEPTED_FILE_TYPES (Upload.type file) = false) before ->
  includes ACCEPTED_FILE_TYPES (Upload.type first) = true ->
  handleDrop (before ++ first :: after)%list
  = if Upload.size first <=? MAX_FILE_SIZE then Some first else None.
Proof.
  intros Hbefore Hfirst. unfold handleDrop.
  assert (Hfind : find (fun file => includes ACCEPTED_FILE_TYPES (Upload.type file))
                    (before ++ first :: after)%list = Some first).
  { induction Hbefore as [|file before Hfile _ IH]; cbn [app find].
    - rewrite Hfirst. reflexivity.
    - rewrite Hfile. exact IH. }
  rewrite Hfind. reflexivity.
Qed.

Lemma handleDrop_first_accepted_decides_witness :
  handleDrop ([Upload.mk (File.mk "notes.txt" None) "text/plain" 12]
                ++ Upload.mk (File.mk "huge.png" None) "image/png" 60000000
                :: [Upload.mk source4K "image/png" 1048576])%list
  = if 60000000 <=? MAX_FILE_SIZE
    then Some (Upload.mk (File.mk "huge.png" None) "image/png" 60000000) else None.
Proof.
  apply (handleDrop_first_accepted_decides
           [Upload.mk (File.mk "notes.txt" None) "text/plain" 12]
           (Upload.mk (File.mk "huge.png" None) "image/png" 60000000)
           [Upload.mk source4K "image/png" 1048576]).
  - repeat constructor.
  - reflexivity.
Defined.

(** X11.  A file that [handleFileSelect] refuses leaves the earlier selection in
    place but clears its results: the derivatives are emptied, the run is
    no longer complete and the dimensions are forgotten.  The message names
    the type first, the size second. *)
Theorem handleFileSelect_refusal u v :
  includes ACCEPTED_FILE_TYPES (Upload.type u) = false
  \/ MAX_FILE_SIZE < Upload.size u ->
  let v' := handleFileSelect u v in
  selectedFile (appState v') = selectedFile (appState v)
  /\ processedImages (appState v') = []
  /\ isComplete (appState v') = false
  /\ imageDimensions v' = None
  /\ error (appState v')
     = if includes ACCEPTED_FILE_TYPES (Upload.type u)
       then "File size must be less than 50MB"
       else "Please select a valid image file (PNG, JPEG, WebP, or TIFF)".
Proof.
  intros Hbad. cbv zeta. unfold handleFileSelect.
  destruct (includes ACCEPTED_FILE_TYPES (Upload.type u)) eqn:Htype; cbn [negb].
  - destruct Hbad as [Hbad|Hbad]; [discriminate|].
    destruct (Z.gtb_spec (Upload.size u) MAX_FILE_SIZE); [|lia].
    repeat split.
  - repeat split.
Qed.

Lemma handleFileSelect_refusal_witness :
  let previous := allImages htmlEncoder (HTMLImageElement.mk 3840 2160) scenarioOptions in
  let v := mkView (mkApp (Some source4K) scenarioOptions EmptyString false None previous true)
             (Some (mkDimensions 3840 2160)) false in
  let v' := handleFileSelect (Upload.mk (File.mk "huge.png" None) "image/png" 60000000) v in
  selectedFile (appState v') = selectedFile (appState v)
  /\ processedImages (appState v') = []
  /\ isComplete (appState v') = false
  /\ imageDimensions v' = None
  /\ error (appState v')
     = if includes ACCEPTED_FILE_TYPES "image/png"
       then "File size must be less than 50MB"
       else "Please select a valid image file (PNG, JPEG, WebP, or TIFF)".
Proof.
  cbv zeta.
  apply (handleFileSelect_refusal
           (Upload.mk (File.mk "huge.png" None) "image/png" 60000000)).
  right. vm_compute. reflexivity.
Defined.

(* ================================================================== *)
(** ** Toggling formats *)

Lemma withFormats_same options :
  withFormats options (ProcessingOptions.formats options) = options.
Proof. destruct options; reflexivity. Qed.

Lemma sameExtension_refl format : sameExtension format format = true.
Proof. unfold sameExtension. apply String.eqb_refl. Qed.

Lemma filter_none {A} (p : A -> bool) xs :
  existsb p xs = false -> filter (fun x => negb (p x)) xs = xs.
Proof.
  induction xs as [|x xs IH]; cbn [existsb filter]; [reflexivity|].
  intros H. apply orb_false_iff in H as [Hx Hxs]. rewrite Hx. cbn [negb].
  now rewrite IH.
Qed.

Lemma filter_idem {A} (p : A -> bool) xs : filter p (filter p xs) = filter p xs.
Proof.
  induction xs as [|x xs IH]; cbn [filter]; [reflexivity|].
  destruct (p x) eqn:Hx; cbn [filter]; [rewrite Hx; now rewrite IH|exact IH].
Qed.

Lemma existsb_filter_negb {A} (p : A -> bool) xs :
  existsb p (filter (fun x => negb (p x)) xs) = false.
Proof.
  induction xs as [|x xs IH]; cbn [filter]; [reflexivity|].
  destruct (p x) eqn:Hx; cbn [negb existsb]; [exact IH|].
  rewrite Hx. exact IH.
Qed.

(** X12.  Selecting a format that was not selected and deselecting it again gives
    back the options one started from, order included. *)
Theorem handleFormatToggle_add_then_remove options formatIndex format :
  nth_error IMAGE_FORMATS formatIndex = Some format ->
  existsb (fun f => sameExtension f format) (ProcessingOptions.formats options) = false ->
  exists added,
    handleFormatToggle options formatIndex = Some added
    /\ ProcessingOptions.formats added
       = (ProcessingOptions.formats options ++ [format])%list
    /\ handleFormatToggle added formatIndex = Some options.
Proof.
  intros Hnth Habsent. unfold handleFormatToggle at 1. rewrite Hnth, Habsent.
  eexists. split; [reflexivity|]. split; [reflexivity|].
  unfold handleFormatToggle. rewrite Hnth.
  cbn [withFormats ProcessingOptions.formats].
  rewrite existsb_app. cbn [existsb]. rewrite sameExtension_refl, orb_true_r.
  rewrite filter_app. cbn [filter]. rewrite sameExtension_refl. cbn [negb].
  rewrite (filter_none (fun f => sameExtension f format)) by exact Habsent.
  rewrite app_nil_r. destruct options; reflexivity.
Qed.

Lemma handleFormatToggle_add_then_remove_witness :
  exists added,
    handleFormatToggle scenarioOptions 0 = Some added
    /\ ProcessingOptions.formats added
       = (ProcessingOptions.formats scenarioOptions ++ [AVIF])%list
    /\ handleFormatToggle added 0 = Some scenarioOptions.
Proof.
  apply (handleFormatToggle_add_then_remove scenarioOptions 0%nat AVIF).
  - reflexivity.
  - reflexivity.
Defined.

(** X13.  A toggle flips the selection of its format, keeps the other formats in
    their order and touches no other option; a format that is deselected
    and selected again comes back at the end of the list. *)
Theorem handleFormatToggle_flips options formatIndex format toggled :
  nth_error IMAGE_FORMATS formatIndex = Some format ->
  handleFormatToggle options formatIndex = Some toggled ->
  existsb (fun f => sameExtension f format) (ProcessingOptions.formats toggled)
  = negb (existsb (fun f => sameExtension f format) (ProcessingOptions.formats options))
  /\ filter (fun f => negb (sameExtension f format)) (ProcessingOptions.formats toggled)
     = filter (fun f => negb (sameExtension f format)) (ProcessingOptions.formats options)
  /\ withFormats toggled (ProcessingOptions.formats options) = options.
Proof.
  intros Hnth Htoggle. unfold handleFormatToggle in Htoggle. rewrite Hnth in Htoggle.
  destruct (existsb (fun f => sameExtension f format) (ProcessingOptions.formats options))
    eqn:Hsel; injection Htoggle as <-; cbn [withFormats ProcessingOptions.formats negb].
  - split; [apply existsb_filter_negb|]. split; [|destruct options; reflexivity].
    apply filter_idem.
  - rewrite existsb_app. cbn [existsb]. rewrite sameExtension_refl, orb_true_r.
    split; [reflexivity|]. split; [|destruct options; reflexivity].
    rewrite filter_app. cbn [filter]. rewrite sameExtension_refl. cbn [negb].
    apply app_nil_r.
Qed.

Lemma handleFormatToggle_flips_witness :
  existsb (fun f => sameExtension f WebP)
    (ProcessingOptions.formats (withFormats scenarioOptions [JPEG]))
  = negb (existsb (fun f => sameExtension f WebP) (ProcessingOptions.formats scenarioOptions))
  /\ filter (fun f => negb (sameExtension f WebP))
       (ProcessingOptions.formats (withFormats scenarioOptions [JPEG]))
     = filter (fun f => negb (sameExtension f WebP))
         (ProcessingOptions.formats scenarioOptions)
  /\ withFormats (withFormats scenarioOptions [JPEG])
       (ProcessingOptions.formats scenarioOptions) = scenarioOptions.
Proof.
  apply (handleFormatToggle_flips scenarioOptions 1%nat WebP
           (withFormats scenarioOptions [JPEG])).
  - reflexivity.
  - reflexivity.
Defined.

Lemma In_map_filter {A B} (g : A -> B) (p : A -> bool) xs y :
  In y (map g (filter p xs)) -> In y (map g xs).
Proof.
  intros H. apply in_map_iff in H as (x & <- & Hx). apply filter_In in Hx as [Hx _].
  apply in_map. exact Hx.
Qed.

Lemma NoDup_map_filter {A B} (g : A -> B) (p : A -> bool) xs :
  NoDup (map g xs) -> NoDup (map g (filter p xs)).
Proof.
  induction xs as [|x xs IH]; cbn [map filter]; [auto|].
  intros H. inversion H as [|? ? Hnotin Hrest]; subst.
  destruct (p x); cbn [map]; [|auto].
  constructor; [|auto]. intros Hin. apply Hnotin. eapply In_map_filter. exact Hin.
Qed.

(** X14.  Toggling keeps the selected formats unique by extension. *)
Theorem handleFormatToggle_keeps_unique options formatIndex toggled :
  NoDup (map ImageFormat.extension (ProcessingOptions.formats options)) ->
  handleFormatToggle options formatIndex = Some toggled ->
  NoDup (map ImageFormat.extension (ProcessingOptions.formats toggled)).
Proof.
  intros Hnd Htoggle. unfold handleFormatToggle in Htoggle.
  destruct (nth_error IMAGE_FORMATS formatIndex) as [format|]; [|discriminate].
  destruct (existsb (fun f => sameExtension f format) (ProcessingOptions.formats options))
    eqn:Hsel; injection Htoggle as <-; cbn [withFormats ProcessingOptions.formats].
  - apply NoDup_map_filter. exact Hnd.
  - rewrite map_app. cbn [map].
    assert (Hnotin : ~ In (ImageFormat.extension format)
                       (map ImageFormat.extension (ProcessingOptions.formats options))).
    { intros Hin. apply in_map_iff in Hin as (f & Hext & Hf).
      assert (existsb (fun f => sameExtension f format)
                (ProcessingOptions.formats options) = true).
      { apply existsb_exists. exists f. split; [exact Hf|].
        unfold sameExtension. rewrite Hext. apply String.eqb_refl. }
      congruence. }
    clear Hsel.
    induction (map ImageFormat.extension (ProcessingOptions.formats options))
      as [|e es IH]; cbn [app].
    + constructor; [intros []|constructor].
    + inversion Hnd as [|? ? He Hes]; subst. constructor.
      * intros Hin. apply in_app_or in Hin as [Hin|[Hin|[]]]; [contradiction|].
        apply Hnotin. left. symmetry. exact Hin.
      * apply IH; [exact Hes|]. intros Hin. apply Hnotin. right. exact Hin.
Qed.

Lemma handleFormatToggle_keeps_unique_witness :
  NoDup (map ImageFormat.extension
           (ProcessingOptions.formats (withFormats scenarioOptions [WebP; JPEG; PNG]))).
Proof.
  apply (handleFormatToggle_keeps_unique scenarioOptions 3%nat
           (withFormats scenarioOptions [WebP; JPEG; PNG])).
  - cbn. repeat constructor; cbn; intuition discriminate.
  - reflexivity.
Defined.

(* ================================================================== *)
(** ** Toggling breakpoints *)

Lemma insertByWidth_In x xs y : In y (insertByWidth x xs) <-> y = x \/ In y xs.
Proof.
  induction xs as [|z zs IH]; cbn [insertByWidth].
  - cbn. intuition.
  - destruct (Breakpoint.width x <? Breakpoint.width z); cbn [In]; [rewrite IH|];
      intuition.
Qed.

Lemma sortByWidthDescending_In xs y : In y (sortByWidthDescending xs) <-> In y xs.
Proof.
  unfold sortByWidthDescending. induction xs as [|x xs IH]; cbn [fold_right]; [tauto|].
  rewrite insertByWidth_In, IH. cbn. intuition.
Qed.

Lemma insertByWidth_sorted x xs :
  StronglySorted widerFirst xs -> StronglySorted widerFirst (insertByWidth x xs).
Proof.
  induction 1 as [|z zs Hzs IH Hz]; cbn [insertByWidth].
  - repeat constructor.
  - destruct (Z.ltb_spec (Breakpoint.width x) (Breakpoint.width z)) as [Hlt|Hge].
    + constructor; [exact IH|]. apply Forall_forall. intros y Hy.
      apply insertByWidth_In in Hy as [->|Hy].
      * unfold widerFirst. lia.
      * rewrite Forall_forall in Hz. apply Hz. exact Hy.
    + constructor; [constructor; assumption|]. constructor.
      * unfold widerFirst. lia.
      * apply Forall_forall. intros y Hy. rewrite Forall_forall in Hz.
        specialize (Hz y Hy). unfold widerFirst in *. lia.
Qed.

Lemma sortByWidthDescending_sorted xs :
  StronglySorted widerFirst (sortByWidthDescending xs).
Proof.
  unfold sortByWidthDescending. induction xs as [|x xs IH]; cbn [fold_right].
  - constructor.
  - apply insertByWidth_sorted. exact IH.
Qed.

Lemma filter_sorted (p : Breakpoint.t -> bool) xs :
  StronglySorted widerFirst xs -> StronglySorted widerFirst (filter p xs).
Proof.
  induction 1 as [|z zs Hzs IH Hz]; cbn [filter]; [constructor|].
  destruct (p z); [|exact IH].
  constructor; [exact IH|]. apply Forall_forall. intros y Hy.
  apply filter_In in Hy as [Hy _]. rewrite Forall_forall in Hz. apply Hz. exact Hy.
Qed.

(** X15.  A toggle keeps the breakpoints ordered from the widest to the
    narrowest, which is the order the derivatives are produced in. *)
Theorem handleBreakpointToggle_keeps_order options dims breakpointIndex toggled :
  StronglySorted widerFirst (ProcessingOptions.breakpoints options) ->
  handleBreakpointToggle options dims breakpointIndex = Some toggled ->
  StronglySorted widerFirst (ProcessingOptions.breakpoints toggled).
Proof.
  intros Hsorted Htoggle. unfold handleBreakpointToggle in Htoggle.
  destruct (nth_error DEFAULT_BREAKPOINTS breakpointIndex) as [breakpoint|];
    [|discriminate].
  destruct (isDisabled options dims breakpoint); [injection Htoggle as <-; exact Hsorted|].
  destruct (existsb (fun b => sameWidth b breakpoint) (ProcessingOptions.breakpoints options));
    injection Htoggle as <-; cbn [withBreakpoints ProcessingOptions.breakpoints].
  - apply filter_sorted. exact Hsorted.
  - apply sortByWidthDescending_sorted.
Qed.

Lemma handleBreakpointToggle_keeps_order_witness :
  StronglySorted widerFirst
    (ProcessingOptions.breakpoints
       (withBreakpoints scenarioOptions
          [bp1080p; Breakpoint.mk "Tablet" 1024 "Tablet devices"; bpMobile])).
Proof.
  apply (handleBreakpointToggle_keeps_order scenarioOptions
           (Some (mkDimensions 3840 2160)) 3%nat
           (withBreakpoints scenarioOptions
              [bp1080p; Breakpoint.mk "Tablet" 1024 "Tablet devices"; bpMobile])).
  - repeat constructor; unfold widerFirst; cbn; lia.
  - reflexivity.
Defined.

(** X16.  A breakpoint whose button is disabled can be neither added nor removed,
    and a toggle never adds a breakpoint that needs more than the width of
    the source: every breakpoint of the result was selected before or
    fits. *)
Theorem handleBreakpointToggle_never_upscales options d breakpointIndex breakpoint toggled :
  nth_error DEFAULT_BREAKPOINTS breakpointIndex = Some breakpoint ->
  handleBreakpointToggle options (Some d) breakpointIndex = Some toggled ->
  (isDisabled options (Some d) breakpoint = true -> toggled = options)
  /\ ProcessingOptions.includeRetina toggled = ProcessingOptions.includeRetina options
  /\ forall bp, In bp (ProcessingOptions.breakpoints toggled) ->
                In bp (ProcessingOptions.breakpoints options)
                \/ (bp = breakpoint /\ requiredWidth options bp <= dimWidth d).
Proof.
  intros Hnth Htoggle. unfold handleBreakpointToggle in Htoggle. rewrite Hnth in Htoggle.
  destruct (isDisabled options (Some d) breakpoint) eqn:Hdis.
  - injection Htoggle as <-. repeat split. intros bp Hbp. now left.
  - split; [discriminate|].
    assert (Hfit : requiredWidth options breakpoint <= dimWidth d).
    { unfold isDisabled in Hdis.
      destruct (Z.gtb_spec (requiredWidth options breakpoint) (dimWidth d));
        [discriminate|lia]. }
    destruct (existsb (fun b => sameWidth b breakpoint)
                (ProcessingOptions.breakpoints options));
      injection Htoggle as <-;
      cbn [withBreakpoints ProcessingOptions.breakpoints ProcessingOptions.includeRetina];
      (split; [reflexivity|]); intros bp Hbp.
    + apply filter_In in Hbp as [Hbp _]. now left.
    + apply (proj1 (sortByWidthDescending_In _ _)) in Hbp.
      apply in_app_or in Hbp as [Hbp|[<-|[]]].
      * now left.
      * right. split; [reflexivity|exact Hfit].
Qed.

Lemma handleBreakpointToggle_never_upscales_witness :
  (isDisabled scenarioOptions (Some (mkDimensions 3840 2160))
     (Breakpoint.mk "4K" 3840 "4K displays") = true ->
   scenarioOptions = scenarioOptions)
  /\ ProcessingOptions.includeRetina scenarioOptions
     = ProcessingOptions.includeRetina scenarioOptions
  /\ forall bp, In bp (ProcessingOptions.breakpoints scenarioOptions) ->
                In bp (ProcessingOptions.breakpoints scenarioOptions)
                \/ (bp = Breakpoint.mk "4K" 3840 "4K displays"
                    /\ requiredWidth scenarioOptions bp <= dimWidth (mkDimensions 3840 2160)).
Proof.
  apply (handleBreakpointToggle_never_upscales scenarioOptions (mkDimensions 3840 2160)
           0%nat (Breakpoint.mk "4K" 3840 "4K displays") scenarioOptions).
  - reflexivity.
  - reflexivity.
Defined.

(* ================================================================== *)
(** ** The effect that drops upscaled breakpoints *)

Lemma filter_same_length {A} (p : A -> bool) xs :
  List.length (filter p xs) = List.length xs -> filter p xs = xs.
Proof.
  induction xs as [|x xs IH]; cbn [filter]; [reflexivity|].
  destruct (p x); cbn [List.length]; intros H.
  - f_equal. apply IH. lia.
  - pose proof (filter_length_le p xs). lia.
Qed.

Lemma validBreakpointsEffect_breakpoints options d :
  ProcessingOptions.breakpoints (validBreakpointsEffect options (Some d))
  = filter (fits options d) (ProcessingOptions.breakpoints options).
Proof.
  unfold validBreakpointsEffect. fold (fits options d).
  destruct (Nat.eqb_spec
              (List.length (filter (fits options d) (ProcessingOptions.breakpoints options)))
              (List.length (ProcessingOptions.breakpoints options))) as [Heq|Hne];
    cbn [negb].
  - symmetry. apply filter_same_length. exact Heq.
  - reflexivity.
Qed.

Lemma validBreakpointsEffect_others options dims :
  ProcessingOptions.includeRetina (validBreakpointsEffect options dims)
  = ProcessingOptions.includeRetina options
  /\ ProcessingOptions.formats (validBreakpointsEffect options dims)
     = ProcessingOptions.formats options
  /\ ProcessingOptions.lossless (validBreakpointsEffect options dims)
     = ProcessingOptions.lossless options.
Proof.
  unfold validBreakpointsEffect. destruct dims as [d|]; [|repeat split].
  destruct (negb _); repeat split.
Qed.

Lemma exact_widths_of_fitting toBlob img options breakpoints :
  0 <= HTMLImageElement.width img ->
  Forall (fun bp => requiredWidth options bp <= HTMLImageElement.width img) breakpoints ->
  map (fun x => ProcessedImage.width (ProcessedImage.dimensions x))
    (flat_map (fun breakpoint =>
                 flat_map (pairImages toBlob img options breakpoint)
                          (ProcessingOptions.formats options))
       breakpoints)
  = flat_map (fun breakpoint =>
                flat_map (fun format =>
                            if skipped options format then []
                            else Breakpoint.width breakpoint
                                 :: (if ProcessingOptions.includeRetina options
                                     then [Breakpoint.width breakpoint * 2] else []))
                         (ProcessingOptions.formats options))
       breakpoints.
Proof.
  intros Hw Hfit. induction Hfit as [|bp bps Hbp _ IH]; [reflexivity|].
  cbn [flat_map]. rewrite map_app, IH. f_equal. clear IH.
  induction (ProcessingOptions.formats options) as [|format formats IHf]; [reflexivity|].
  cbn [flat_map]. rewrite map_app, IHf. f_equal.
  unfold pairImages, requiredWidth in *. destruct (skipped options format); [reflexivity|].
  destruct (ProcessingOptions.includeRetina options); cbv iota in Hbp;
    cbn [map resized ProcessedImage.dimensions ProcessedImage.width]; unfold finalWidth;
    rewrite !Z.min_l by lia; reflexivity.
Qed.

(** X17.  Once the effect has run on the dimensions of the source, every selected
    breakpoint fits, with its retina variant when retina is on, and a run
    on the options it leaves, when no resized canvas is empty, returns
    derivatives of exactly the widths asked for: none is narrower than its
    name says.  Running the effect again changes nothing. *)
Theorem validBreakpointsEffect_exact_widths toBlob file img options w :
  File.image file = Some img ->
  0 <= HTMLImageElement.width img ->
  encodesPixels toBlob ->
  let d := mkDimensions (HTMLImageElement.width img) (HTMLImageElement.height img) in
  let valid := validBreakpointsEffect options (Some d) in
  sizesOk img valid = true ->
  Forall (fun bp => requiredWidth valid bp <= HTMLImageElement.width img)
         (ProcessingOptions.breakpoints valid)
  /\ (exists results w',
         processImage toBlob file valid w = (Return results, w')
         /\ map (fun x => ProcessedImage.width (ProcessedImage.dimensions x)) results
            = targetWidths valid)
  /\ validBreakpointsEffect valid (Some d) = valid.
Proof.
  intros Himg Hw Henc. cbv zeta.
  set (d := mkDimensions (HTMLImageElement.width img) (HTMLImageElement.height img)).
  intros Hsz.
  assert (Hfit : Forall (fun bp => requiredWidth (validBreakpointsEffect options (Some d)) bp
                                   <= HTMLImageElement.width img)
                   (ProcessingOptions.breakpoints (validBreakpointsEffect options (Some d)))).
  { rewrite validBreakpointsEffect_breakpoints. apply Forall_forall. intros bp Hbp.
    apply filter_In in Hbp as [_ Hbp]. unfold fits in Hbp. apply Z.leb_le in Hbp.
    unfold requiredWidth in *.
    rewrite (proj1 (validBreakpointsEffect_others options (Some d))). exact Hbp. }
  split; [exact Hfit|]. split.
  - destruct (processImage_ok toBlob file img (validBreakpointsEffect options (Some d)) w
                Himg Henc Hsz) as [c Hrun].
    eexists _, _. split; [exact Hrun|].
    apply exact_widths_of_fitting; assumption.
  - set (valid := validBreakpointsEffect options (Some d)) in *.
    unfold validBreakpointsEffect at 1. fold (fits valid d).
    assert (Hall : filter (fits valid d) (ProcessingOptions.breakpoints valid)
                   = ProcessingOptions.breakpoints valid).
    { apply forallb_filter_id. apply forallb_forall. intros bp Hbp.
      rewrite Forall_forall in Hfit. specialize (Hfit bp Hbp).
      unfold fits. apply Z.leb_le. exact Hfit. }
    rewrite Hall, Nat.eqb_refl. reflexivity.
Qed.

Lemma validBreakpointsEffect_exact_widths_witness :
  let valid := validBreakpointsEffect
                 (withBreakpoints scenarioOptions DEFAULT_BREAKPOINTS)
                 (Some (mkDimensions 3840 2160)) in
  Forall (fun bp => requiredWidth valid bp <= 3840) (ProcessingOptions.breakpoints valid)
  /\ (exists results w',
         processImage htmlEncoder source4K valid freshWorld = (Return results, w')
         /\ map (fun x => ProcessedImage.width (ProcessedImage.dimensions x)) results
            = targetWidths valid)
  /\ validBreakpointsEffect valid (Some (mkDimensions 3840 2160)) = valid.
Proof.
  cbv zeta.
  apply (validBreakpointsEffect_exact_widths htmlEncoder source4K
           (HTMLImageElement.mk 3840 2160)
           (withBreakpoints scenarioOptions DEFAULT_BREAKPOINTS) freshWorld).
  - reflexivity.
  - cbn. lia.
  - exact htmlEncoder_encodesPixels.
  - vm_compute. reflexivity.
Defined.

(** Without the effect a retina variant can be clamped: at source width
    3840 the 4K breakpoint gives two derivatives of the same width. *)
Example retina_clamped_without_effect :
  map (fun x => (ProcessedImage.name x, ProcessedImage.width (ProcessedImage.dimensions x)))
    (allImages htmlEncoder (HTMLImageElement.mk 3840 2160)
       (ProcessingOptions.mk false 85 [WebP] [Breakpoint.mk "4K" 3840 "4K displays"] true))
  = [("image-3840.webp", 3840); ("image-3840@2x.webp", 3840)].
Proof. vm_compute. reflexivity. Qed.

(** X18.  A source narrower than 960 pixels with retina on cannot be processed:
    the retina switch is disabled, the effect removes every default
    breakpoint, no toggle brings one back, and the Process button stays
    disabled. *)
Theorem narrow_source_cannot_be_processed opts d :
  dimWidth d < 960 ->
  ProcessingOptions.includeRetina opts = true ->
  incl (ProcessingOptions.breakpoints opts) DEFAULT_BREAKPOINTS ->
  let valid := validBreakpointsEffect opts (Some d) in
  isRetinaDisabled (Some d) = true
  /\ ProcessingOptions.breakpoints valid = []
  /\ (forall breakpointIndex toggled,
         handleBreakpointToggle valid (Some d) breakpointIndex = Some toggled ->
         toggled = valid)
  /\ (forall st, options st = valid -> canProcess st = false).
Proof.
  intros Hd Hretina Hincl. cbv zeta.
  assert (Hdisabled : forall o bp, ProcessingOptions.includeRetina o = true ->
                                   In bp DEFAULT_BREAKPOINTS ->
                                   isDisabled o (Some d) bp = true).
  { intros o bp Ho Hbp. unfold isDisabled, requiredWidth. rewrite Ho.
    apply Z.gtb_lt.
    cbn in Hbp. destruct Hbp as [<-|[<-|[<-|[<-|[<-|[<-|[]]]]]]]; cbn; lia. }
  assert (Hempty : ProcessingOptions.breakpoints (validBreakpointsEffect opts (Some d))
                   = []).
  { rewrite validBreakpointsEffect_breakpoints.
    induction (ProcessingOptions.breakpoints opts) as [|bp bps IH]; [reflexivity|].
    cbn [filter].
    assert (Hbp : isDisabled opts (Some d) bp = true)
      by (apply Hdisabled; [exact Hretina|apply Hincl; now left]).
    unfold isDisabled in Hbp. apply Z.gtb_lt in Hbp. unfold fits.
    destruct (Z.leb_spec (requiredWidth opts bp) (dimWidth d)); [lia|].
    apply IH. intros x Hx. apply Hincl. now right. }
  split; [unfold isRetinaDisabled; apply Z.ltb_lt; exact Hd|].
  split; [exact Hempty|]. split.
  - intros breakpointIndex toggled Htoggle. unfold handleBreakpointToggle in Htoggle.
    destruct (nth_error DEFAULT_BREAKPOINTS breakpointIndex) as [bp|] eqn:Hnth;
      [|discriminate].
    rewrite Hdisabled in Htoggle.
    + now injection Htoggle as <-.
    + rewrite (proj1 (validBreakpointsEffect_others opts (Some d))). exact Hretina.
    + eapply nth_error_In. exact Hnth.
  - intros st Hst. unfold canProcess. rewrite Hst, Hempty.
    destruct (selectedFile st); [|reflexivity].
    cbn [List.length]. rewrite andb_false_r. reflexivity.
Qed.

Lemma narrow_source_cannot_be_processed_witness :
  let d := mkDimensions 800 600 in
  let valid := validBreakpointsEffect scenarioOptions (Some d) in
  isRetinaDisabled (Some d) = true
  /\ ProcessingOptions.breakpoints valid = []
  /\ (forall breakpointIndex toggled,
         handleBreakpointToggle valid (Some d) breakpointIndex = Some toggled ->
         toggled = valid)
  /\ (forall st, options st = valid -> canProcess st = false).
Proof.
  cbv zeta.
  apply (narrow_source_cannot_be_processed scenarioOptions (mkDimensions 800 600)).
  - cbn. lia.
  - reflexivity.
  - intros bp [<-|[<-|[]]]; cbn; auto 10.
Defined.

(* ================================================================== *)
(** ** The names of a run *)

Lemma toString_parses z : exists d, NilZero.int_of_string (toString z) = Some d.
Proof.
  unfold toString. exists (Z.to_int z). apply NilZero.isi.
  - destruct z as [|p|p]; cbn; try discriminate.
    intros H. injection H as H. exact (Unsigned.to_uint_nonnil p H).
  - destruct z as [|p|p]; cbn; try discriminate.
    intros H. injection H as H. exact (Unsigned.to_uint_nonnil p H).
Qed.

Lemma toString_inj z1 z2 : toString z1 = toString z2 -> z1 = z2.
Proof.
  intros H. apply to_int_inj.
  assert (H1 : NilZero.int_of_string (toString z1) = Some (Z.to_int z1)).
  { unfold toString. apply NilZero.isi; destruct z1 as [|p|p]; cbn; try discriminate;
      intros E; injection E as E; exact (Unsigned.to_uint_nonnil p E). }
  assert (H2 : NilZero.int_of_string (toString z2) = Some (Z.to_int z2)).
  { unfold toString. apply NilZero.isi; destruct z2 as [|p|p]; cbn; try discriminate;
      intros E; injection E as E; exact (Unsigned.to_uint_nonnil p E). }
  rewrite H in H1. rewrite H1 in H2. now injection H2.
Qed.

Lemma uint_of_string_retina s : NilEmpty.uint_of_string (s ++ "@2x") = None.
Proof.
  induction s as [|c s IH]; [reflexivity|].
  cbn [append NilEmpty.uint_of_string]. rewrite IH. reflexivity.
Qed.

(** No decimal numeral ends in ["@2x"]. *)
Lemma toString_not_retina z1 z2 : toString z1 ++ "@2x" <> toString z2.
Proof.
  intros H. destruct (toString_parses z2) as [d Hd]. rewrite <- H in Hd.
  destruct (toString z1) as [|c s]; [discriminate Hd|].
  cbn [append] in Hd. unfold NilZero.int_of_string in Hd.
  destruct (Ascii.eqb c "-").
  - unfold NilZero.uint_of_string in Hd.
    destruct (s ++ "@2x") eqn:Hs; [discriminate|].
    rewrite <- Hs, uint_of_string_retina in Hd. discriminate.
  - unfold NilZero.uint_of_string in Hd.
    change (String c (s ++ "@2x")) with (String c s ++ "@2x") in Hd.
    rewrite uint_of_string_retina in Hd. discriminate.
Qed.

Lemma append_inv_tail s1 s2 t : s1 ++ t = s2 ++ t -> s1 = s2.
Proof.
  revert s2. induction s1 as [|c s1 IH]; intros s2 H.
  - destruct s2 as [|c2 s2]; [reflexivity|].
    apply (f_equal String.length) in H. cbn in H. rewrite length_append in H. lia.
  - destruct s2 as [|c2 s2].
    + apply (f_equal String.length) in H. cbn in H. rewrite length_append in H. lia.
    + cbn [append] in H. injection H as -> H. f_equal. apply IH. exact H.
Qed.

(** A name determines its size suffix and its format. *)
Lemma name_inj s1 s2 f1 f2 :
  In f1 IMAGE_FORMATS -> In f2 IMAGE_FORMATS ->
  "image-" ++ s1 ++ "." ++ ImageFormat.extension f1
  = "image-" ++ s2 ++ "." ++ ImageFormat.extension f2 ->
  s1 = s2 /\ f1 = f2.
Proof.
  intros H1 H2 Hname.
  assert (Htail : s1 ++ "." ++ ImageFormat.extension f1
                  = s2 ++ "." ++ ImageFormat.extension f2).
  { revert Hname.
    generalize (s1 ++ "." ++ ImageFormat.extension f1)
               (s2 ++ "." ++ ImageFormat.extension f2).
    intros a b H. cbn [append] in H. now injection H. }
  clear Hname.
  assert (Hf : f1 = f2).
  { assert (Hends : endsWith (ImageFormat.extension f1)
                      (s2 ++ "." ++ ImageFormat.extension f2) = true).
    { rewrite <- Htail. rewrite endsWith_append by (cbn; lia).
      destruct H1 as [<-|[<-|[<-|[<-|[]]]]]; reflexivity. }
    rewrite endsWith_append in Hends.
    2:{ destruct H1 as [<-|[<-|[<-|[<-|[]]]]], H2 as [<-|[<-|[<-|[<-|[]]]]]; cbn; lia. }
    destruct H1 as [<-|[<-|[<-|[<-|[]]]]], H2 as [<-|[<-|[<-|[<-|[]]]]];
      try reflexivity; discriminate Hends. }
  subst f2. split; [|reflexivity]. eapply append_inv_tail. exact Htail.
Qed.

Lemma NoDup_append {A} (xs ys : list A) :
  NoDup xs -> NoDup ys -> (forall a, In a xs -> ~ In a ys) -> NoDup (xs ++ ys).
Proof.
  induction 1 as [|x xs Hx Hxs IH]; intros Hys Hdisj; [exact Hys|].
  cbn [app]. constructor.
  - intros Hin. apply in_app_or in Hin as [Hin|Hin]; [contradiction|].
    exact (Hdisj x (or_introl eq_refl) Hin).
  - apply IH; [exact Hys|]. intros a Ha. apply Hdisj. now right.
Qed.

Lemma NoDup_flat_map {A B} (f : A -> list B) xs :
  NoDup xs ->
  (forall x, In x xs -> NoDup (f x)) ->
  (forall x y b, In x xs -> In y xs -> In b (f x) -> In b (f y) -> x = y) ->
  NoDup (flat_map f xs).
Proof.
  induction 1 as [|x xs Hx Hxs IH]; intros Hnd Hdisj; [constructor|].
  cbn [flat_map]. apply NoDup_append.
  - apply Hnd. now left.
  - apply IH.
    + intros y Hy. apply Hnd. now right.
    + intros y z b Hy Hz. apply Hdisj; now right.
  - intros b Hb Hin. apply in_flat_map in Hin as (y & Hy & Hby).
    assert (x = y) by (apply (Hdisj x y b); [now left|now right|exact Hb|exact Hby]).
    subst y. contradiction.
Qed.

Lemma pairNames_inv options breakpoint format name :
  In name (pairNames options breakpoint format) ->
  skipped options format = false
  /\ (name = "image-" ++ toString (Breakpoint.width breakpoint) ++ "."
              ++ ImageFormat.extension format
      \/ name = "image-" ++ (toString (Breakpoint.width breakpoint) ++ "@2x") ++ "."
                ++ ImageFormat.extension format).
Proof.
  unfold pairNames. destruct (skipped options format); [intros []|].
  intros [<-|Hin]; [split; [reflexivity|now left]|].
  destruct (ProcessingOptions.includeRetina options); [|destruct Hin].
  destruct Hin as [<-|[]]. split; [reflexivity|now right].
Qed.

Lemma NoDup_map_inj {A B} (g : A -> B) xs :
  NoDup (map g xs) -> forall x y, In x xs -> In y xs -> g x = g y -> x = y.
Proof.
  induction xs as [|b bs IH]; [intros _ x y []|].
  cbn [map]. intros Hnd x y Hx Hy Heq. inversion Hnd as [|? ? Hb Hrest]; subst.
  destruct Hx as [<-|Hx], Hy as [<-|Hy].
  - reflexivity.
  - exfalso. apply Hb. rewrite Heq. apply in_map. exact Hy.
  - exfalso. apply Hb. rewrite <- Heq. apply in_map. exact Hx.
  - apply IH; assumption.
Qed.

(** X6.  Two derivatives of a run never share a name: with formats taken from
    [IMAGE_FORMATS] without repetition and breakpoints of distinct widths,
    the names of the derivatives are pairwise different. *)
Theorem derivative_names_distinct toBlob file img options w :
  File.image file = Some img ->
  encodesPixels toBlob ->
  sizesOk img options = true ->
  incl (ProcessingOptions.formats options) IMAGE_FORMATS ->
  NoDup (ProcessingOptions.formats options) ->
  NoDup (map Breakpoint.width (ProcessingOptions.breakpoints options)) ->
  exists results w',
    processImage toBlob file options w = (Return results, w')
    /\ NoDup (map ProcessedImage.name results).
Proof.
  intros Himg Henc Hsz Hincl Hformats Hwidths.
  destruct (processImage_ok toBlob file img options w Himg Henc Hsz) as [c Hrun].
  eexists _, _. split; [exact Hrun|]. rewrite allImages_names. unfold allNames.
  assert (Hbps : NoDup (ProcessingOptions.breakpoints options))
    by (eapply NoDup_map_inv; exact Hwidths).
  pose proof (NoDup_map_inj Breakpoint.width _ Hwidths) as Hwinj.
  assert (Hsuffix : forall x y, toString x ++ "@2x" = toString y ++ "@2x" -> x = y).
  { intros x y H. apply toString_inj. eapply append_inv_tail. exact H. }
  apply NoDup_flat_map; [exact Hbps| |].
  - intros bp Hbp. apply NoDup_flat_map; [exact Hformats| |].
    + intros f Hf. unfold pairNames. destruct (skipped options f); [constructor|].
      destruct (ProcessingOptions.includeRetina options).
      * constructor; [|constructor; [intros []|constructor]].
        intros [H|[]]. apply (name_inj _ _ f f (Hincl f Hf) (Hincl f Hf)) in H as [H _].
        exact (toString_not_retina _ _ H).
      * constructor; [intros []|constructor].
    + intros f g name Hf Hg Hn1 Hn2.
      apply pairNames_inv in Hn1 as [_ Hn1]. apply pairNames_inv in Hn2 as [_ Hn2].
      destruct Hn1 as [-> | ->], Hn2 as [Hn2|Hn2];
        apply (name_inj _ _ f g (Hincl f Hf) (Hincl g Hg)) in Hn2 as [_ Hn2]; exact Hn2.
  - intros bp bq name Hbp Hbq Hn1 Hn2.
    apply in_flat_map in Hn1 as (f & Hf & Hn1). apply in_flat_map in Hn2 as (g & Hg & Hn2).
    apply pairNames_inv in Hn1 as [_ Hn1]. apply pairNames_inv in Hn2 as [_ Hn2].
    apply Hwinj; [exact Hbp|exact Hbq|].
    destruct Hn1 as [-> | ->], Hn2 as [Hn2|Hn2];
      apply (name_inj _ _ f g (Hincl f Hf) (Hincl g Hg)) in Hn2 as [Hn2 _].
    + apply toString_inj. exact Hn2.
    + exfalso. exact (toString_not_retina _ _ (eq_sym Hn2)).
    + exfalso. exact (toString_not_retina _ _ Hn2).
    + apply Hsuffix. exact Hn2.
Qed.

Lemma derivative_names_distinct_witness :
  exists results w',
    processImage htmlEncoder source4K scenarioOptions freshWorld = (Return results, w')
    /\ NoDup (map ProcessedImage.name results).
Proof.
  apply (derivative_names_distinct htmlEncoder source4K (HTMLImageElement.mk 3840 2160)
           scenarioOptions freshWorld).
  - reflexivity.
  - exact htmlEncoder_encodesPixels.
  - vm_compute; reflexivity.
  - intros f [<-|[<-|[]]]; cbn; auto.
  - repeat constructor; cbn; intuition discriminate.
  - repeat constructor; cbn; intuition discriminate.
Defined.

(* ================================================================== *)
(** ** The image preview *)

Lemma gcd_is_Zgcd a b : 0 <= a -> 0 <= b -> gcd a b = Z.gcd a b.
Proof.
  functional induction (gcd a b); intros Ha Hb.
  - apply Z.eqb_eq in e. subst b. rewrite Z.gcd_0_r. lia.
  - apply Z.eqb_neq in e. rewrite IHz.
    + rewrite (Z.gcd_comm a b), (Z.gcd_comm b (Z.rem a b)). apply Z.gcd_rem. exact e.
    + exact Hb.
    + apply Z.rem_nonneg; lia.
Qed.

Lemma lookup_commonRatios key v : lookup key commonRatios = Some v -> v = key.
Proof.
  unfold commonRatios. cbn [lookup].
  repeat match goal with
         | |- context [String.eqb ?k key] =>
             destruct (String.eqb_spec k key);
             [intros H; injection H as <-; assumption|]
         end.
  discriminate.
Qed.

Lemma getAspectRatio_formula w h :
  0 < w -> 0 < h ->
  getAspectRatio (Some (mkDimensions w h))
  = Some (toString (w / Z.gcd w h) ++ ":" ++ toString (h / Z.gcd w h)).
Proof.
  intros Hw Hh. unfold getAspectRatio. cbn [dimWidth dimHeight].
  rewrite gcd_is_Zgcd by lia.
  assert (Hg : 0 < Z.gcd w h).
  { pose proof (Z.gcd_nonneg w h).
    destruct (Z.eq_dec (Z.gcd w h) 0) as [E|]; [|lia].
    apply Z.gcd_eq_0_l in E. lia. }
  unfold ratioTerm. destruct (Z.eqb_spec (Z.gcd w h) 0); [lia|].
  destruct (lookup _ commonRatios) as [v|] eqn:Hlookup; [|reflexivity].
  apply lookup_commonRatios in Hlookup. subst v.
  destruct (String.eqb _ EmptyString); reflexivity.
Qed.

(** X19.  The aspect ratio shown for a non-empty image is its width and height
    divided by their gcd, in lowest terms; the table of common ratios never
    changes it; and an image scaled by a whole factor shows the same
    ratio. *)
Theorem getAspectRatio_lowest_terms w h k :
  0 < w -> 0 < h -> 0 < k ->
  getAspectRatio (Some (mkDimensions w h))
  = Some (toString (w / Z.gcd w h) ++ ":" ++ toString (h / Z.gcd w h))
  /\ Z.gcd (w / Z.gcd w h) (h / Z.gcd w h) = 1
  /\ getAspectRatio (Some (mkDimensions (k * w) (k * h)))
     = getAspectRatio (Some (mkDimensions w h)).
Proof.
  intros Hw Hh Hk.
  assert (Hg : 0 < Z.gcd w h).
  { pose proof (Z.gcd_nonneg w h).
    destruct (Z.eq_dec (Z.gcd w h) 0) as [E|]; [|lia].
    apply Z.gcd_eq_0_l in E. lia. }
  split; [apply getAspectRatio_formula; assumption|]. split.
  - apply Z.gcd_div_gcd; [lia|reflexivity].
  - rewrite !getAspectRatio_formula by nia.
    rewrite Z.gcd_mul_mono_l_nonneg by lia.
    rewrite !Z.div_mul_cancel_l by lia. reflexivity.
Qed.

Lemma getAspectRatio_lowest_terms_witness :
  getAspectRatio (Some (mkDimensions 1920 1080))
  = Some (toString (1920 / Z.gcd 1920 1080) ++ ":" ++ toString (1080 / Z.gcd 1920 1080))
  /\ Z.gcd (1920 / Z.gcd 1920 1080) (1080 / Z.gcd 1920 1080) = 1
  /\ getAspectRatio (Some (mkDimensions (2 * 1920) (2 * 1080)))
     = getAspectRatio (Some (mkDimensions 1920 1080)).
Proof.
  apply (getAspectRatio_lowest_terms 1920 1080 2); lia.
Defined.

Example aspect_ratio_4K :
  getAspectRatio (Some (mkDimensions 3840 2160)) = Some "16:9".
Proof. rewrite getAspectRatio_formula by lia. reflexivity. Qed.

(** X20.  The level of the quality assessment says which of the three largest
    default breakpoints are enabled when retina is off: limited when 1080p
    is disabled, adequate when 2K is, good when only 4K is, excellent when
    none is. *)
Theorem getQualityAssessment_matches_breakpoints opts d :
  ProcessingOptions.includeRetina opts = false ->
  getQualityAssessment (Some d)
  = Some (if isDisabled opts (Some d) (Breakpoint.mk "1080p" 1920 "Full HD displays")
          then "limited"
          else if isDisabled opts (Some d) (Breakpoint.mk "2K" 2560 "2K displays")
          then "adequate"
          else if isDisabled opts (Some d) (Breakpoint.mk "4K" 3840 "4K displays")
          then "good"
          else "excellent")
  /\ (getQualityAssessment (Some d) = Some "excellent"
      <-> forallb (fun bp => negb (isDisabled opts (Some d) bp)) DEFAULT_BREAKPOINTS = true).
Proof.
  intros Hretina.
  unfold getQualityAssessment, isDisabled, requiredWidth, DEFAULT_BREAKPOINTS.
  rewrite Hretina. cbn [Breakpoint.width forallb].
  destruct (Z.geb_spec (dimWidth d) 3840), (Z.geb_spec (dimWidth d) 2560),
           (Z.geb_spec (dimWidth d) 1920);
    destruct (Z.gtb_spec 3840 (dimWidth d)), (Z.gtb_spec 2560 (dimWidth d)),
             (Z.gtb_spec 1920 (dimWidth d)), (Z.gtb_spec 1024 (dimWidth d)),
             (Z.gtb_spec 768 (dimWidth d)), (Z.gtb_spec 480 (dimWidth d));
    try lia; cbn [negb andb]; (split; [reflexivity|]); split; intros Hlevel;
    first [reflexivity | discriminate Hlevel].
Qed.

Lemma getQualityAssessment_matches_breakpoints_witness :
  let opts := ProcessingOptions.mk false 85 [WebP] DEFAULT_BREAKPOINTS false in
  let d := mkDimensions 2000 1500 in
  getQualityAssessment (Some d)
  = Some (if isDisabled opts (Some d) (Breakpoint.mk "1080p" 1920 "Full HD displays")
          then "limited"
          else if isDisabled opts (Some d) (Breakpoint.mk "2K" 2560 "2K displays")
          then "adequate"
          else if isDisabled opts (Some d) (Breakpoint.mk "4K" 3840 "4K displays")
          then "good"
          else "excellent")
  /\ (getQualityAssessment (Some d) = Some "excellent"
      <-> forallb (fun bp => negb (isDisabled opts (Some d) bp)) DEFAULT_BREAKPOINTS = true).
Proof.
  cbv zeta.
  apply (getQualityAssessment_matches_breakpoints
           (ProcessingOptions.mk false 85 [WebP] DEFAULT_BREAKPOINTS false)
           (mkDimensions 2000 1500)).
  reflexivity.
Defined.

(** With retina on, as it is by default, a source that is rated excellent
    at 3840 pixels has its 4K breakpoint disabled. *)
Example excellent_but_4K_disabled :
  getQualityAssessment (Some (mkDimensions 3840 2160)) = Some "excellent"
  /\ isDisabled scenarioOptions (Some (mkDimensions 3840 2160))
       (Breakpoint.mk "4K" 3840 "4K displays") = true.
Proof. split; reflexivity. Qed.

Lemma processImage_empty_options_witness :
  processImage htmlEncoder source4K (ProcessingOptions.mk false 85 [] [bpMobile] true)
    freshWorld = (Return [], freshWorld).
Proof.
  apply (processImage_empty_options htmlEncoder source4K (HTMLImageElement.mk 3840 2160)
           (ProcessingOptions.mk false 85 [] [bpMobile] true) freshWorld).
  - reflexivity.
  - left; reflexivity.
Defined.

(* ================================================================== *)
(** ** The percentage of the progress bar *)

Lemma mul_sign_finite_r sx sy x y :
  hasSign sx x -> hasSign sy y -> isFinite y ->
  hasSign (xorb sx sy) (mul x y).
Proof.
  destruct y as [s'|s'| |s' m' e']; cbn [isFinite]; try contradiction.
  intros Hx Hy _. cbn [hasSign] in Hy. subst s'.
  destruct x as [s|s| |s m e]; cbn [hasSign] in Hx; try contradiction; subst s.
  - reflexivity.
  - reflexivity.
  - unfold mul, SFmul. apply binary_round_aux_sign. lia.
Qed.

Lemma derivativeCount_le_totalSteps opts : derivativeCount opts <= totalSteps opts.
Proof.
  unfold derivativeCount, totalSteps, retinaFactor.
  destruct (ProcessingOptions.lossless opts); [|lia].
  destruct (ProcessingOptions.includeRetina opts); nia.
Qed.

(** X21.  The progress bar never shows NaN during a run that succeeds: for every
    record the run reports, the percentage is a number that is at least 0
    (totals below 2^53). *)
Theorem percentage_is_a_number toBlob file img opts w :
  File.image file = Some img ->
  encodesPixels toBlob ->
  sizesOk img opts = true ->
  totalSteps opts < 2 ^ 53 ->
  exists results c events,
    processImage toBlob file opts w = (Return results, mkWorld c (emitted w ++ events)%list)
    /\ Forall (fun p => leb (of_Z 0) (percentage (Some p)) = true) events.
Proof.
  intros Himg Henc Hsz Hbound.
  destruct (processImage_ok toBlob file img opts w Himg Henc Hsz) as [c Hrun].
  eexists _, _, _. split; [exact Hrun|].
  apply Forall_forall. intros p Hp.
  destruct (progressFrom_bounds _ _ _ _ Hp) as [Ht Hc].
  rewrite allTasks_count in Hc. pose proof (derivativeCount_le_totalSteps opts) as Hle.
  unfold percentage. apply hasSign_nonneg, Math_round_sign.
  apply (mul_sign_finite_r false false).
  - apply (div_sign false false).
    + apply of_Z_nonneg. lia.
    + apply of_Z_nonneg. lia.
    + apply of_Z_finite. lia.
    + apply of_Z_finite. lia.
  - apply of_Z_nonneg. lia.
  - apply of_Z_finite. lia.
Qed.

Lemma percentage_is_a_number_witness :
  exists results c events,
    processImage htmlEncoder source4K scenarioOptions freshWorld
    = (Return results, mkWorld c (emitted freshWorld ++ events)%list)
    /\ Forall (fun p => leb (of_Z 0) (percentage (Some p)) = true) events.
Proof.
  apply (percentage_is_a_number htmlEncoder source4K (HTMLImageElement.mk 3840 2160)
           scenarioOptions freshWorld).
  - reflexivity.
  - exact htmlEncoder_encodesPixels.
  - vm_compute; reflexivity.
  - vm_compute; reflexivity.
Defined.

(** The percentages of the first scenario, and the bar that stops at 50 in
    the lossless scenario with JPEG selected. *)
Example percentages_of_scenarios :
  map (fun p => percentage (Some p)) (snd (handleProcess htmlEncoder
         (mkApp (Some source4K) scenarioOptions EmptyString false None [] false)))
  = map of_Z [13; 25; 38; 50; 63; 75; 88; 100]
  /\ map (fun p => percentage (Some p)) (snd (handleProcess htmlEncoder
         (mkApp (Some source4K) (losslessOptions false) EmptyString false None [] false)))
     = [of_Z 50].
Proof. split; vm_compute; reflexivity. Qed.
